(** * CI helper scripts: the Terraform plan classifier and the coverage gate

    A shallow embedding of [shouldCollapsePlan] (the plan-comment script) and
    of [parseCodeowners], [checkCodeownersApproval], [getCoverageData] and
    [analyzeCoverageResults] (analyze-coverage-results.mjs), with the
    properties the specification states about them.

    JavaScript strings are sequences of code units.  The model works on
    [list ascii]: one [ascii] is one code unit below 256, which covers every
    character the regular expressions of the scripts name explicitly; the
    white space and the line terminators above 255 are outside the model.
    Numbers are binary64 floats, as in the language. *)

From Stdlib Require Import List String Ascii Bool Arith NArith ZArith Lia.
From Stdlib Require Import Floats.PrimFloat.
From Stdlib Require Floats.FloatAxioms Floats.SpecFloat Floats.FloatOps.
Import ListNotations.

Set Warnings "-register-all".

(** ** JavaScript text *)

Definition text := list ascii.

Definition chars (s : string) : text := list_ascii_of_string s.

Definition code (c : ascii) : nat := nat_of_ascii c.

Definition between (lo hi : nat) (c : ascii) : bool :=
  (lo <=? code c) && (code c <=? hi).

(** [\d] *)
Definition is_digit (c : ascii) : bool := between 48 57 c.

(** [\w]: letters, digits and the underscore. *)
Definition is_word (c : ascii) : bool :=
  between 97 122 c || between 65 90 c || is_digit c || (code c =? 95).

(** Line terminators: LF and CR (U+2028 and U+2029 lie outside the model). *)
Definition is_line_terminator (c : ascii) : bool :=
  (code c =? 10) || (code c =? 13).

(** [\s], and the characters [trim] removes: TAB, LF, VT, FF, CR, space and
    the no-break space. *)
Definition is_space (c : ascii) : bool :=
  between 9 13 c || (code c =? 32) || (code c =? 160).

(** [.] without the [s] flag. *)
Definition any_char (c : ascii) : bool := negb (is_line_terminator c).

Definition one_of (s : string) (c : ascii) : bool :=
  existsb (Ascii.eqb c) (chars s).

Fixpoint text_eqb (a b : text) : bool :=
  match a, b with
  | [], [] => true
  | x :: a', y :: b' => Ascii.eqb x y && text_eqb a' b'
  | _, _ => false
  end.

(** [s.startsWith(p)] *)
Fixpoint startsWith (p s : text) : bool :=
  match p, s with
  | [], _ => true
  | x :: p', y :: s' => Ascii.eqb x y && startsWith p' s'
  | _ :: _, [] => false
  end.

(** [s.includes(p)] *)
Fixpoint includes (p s : text) : bool :=
  startsWith p s ||
  match s with
  | [] => false
  | _ :: s' => includes p s'
  end.

(** [s.split(sep)] for a one-character separator: never empty, the pieces
    in order. *)
Fixpoint split (sep : ascii) (s : text) : list text :=
  match s with
  | [] => [[]]
  | a :: s' =>
      if Ascii.eqb a sep then [] :: split sep s'
      else match split sep s' with
           | piece :: rest => (a :: piece) :: rest
           | [] => [[a]]
           end
  end.

Fixpoint drop_while (f : ascii -> bool) (s : text) : text :=
  match s with
  | [] => []
  | a :: s' => if f a then drop_while f s' else s
  end.

(** [s.trim()] *)
Definition trim (s : text) : text :=
  rev (drop_while is_space (rev (drop_while is_space s))).

(** ** Regular expressions

    The expressions of the two scripts quantify single-character atoms only,
    so [Star] takes a character class.  Matching is the backtracking search
    of the language: [exec] lists every way the expression can match from a
    position, in the order backtracking tries them, and the first one is the
    match. *)

Module RegExp.

Inductive regex : Type :=
| Lit (s : string)                       (* a run of literal characters *)
| Class (f : ascii -> bool)              (* one character of a class *)
| Cat (r1 r2 : regex)
| Star (greedy : bool) (f : ascii -> bool)
| Group (n : nat) (r : regex)            (* capture group number n *)
| NotAhead (r : regex)                   (* (?!r) *)
| Bol                                    (* ^ *)
| Eol.                                   (* $ *)

(** [c+] and [c+?] *)
Definition Plus (greedy : bool) (f : ascii -> bool) : regex :=
  Cat (Class f) (Star greedy f).

(** A position in the input: the character just before it, if any, and the
    characters from it on. *)
Record cursor : Type := Cursor { before : option ascii; ahead : text }.

Definition captures := list (nat * text).

Fixpoint capture (n : nat) (caps : captures) : text :=
  match caps with
  | [] => []
  | (k, s) :: caps' => if k =? n then s else capture n caps'
  end.

Fixpoint eat (s : text) (c : cursor) : option cursor :=
  match s with
  | [] => Some c
  | a :: s' =>
      match ahead c with
      | b :: t => if Ascii.eqb a b then eat s' (Cursor (Some b) t) else None
      | [] => None
      end
  end.

(** The positions a starred class can stop at, shortest run first. *)
Fixpoint runs (f : ascii -> bool) (prev : option ascii) (s : text) : list cursor :=
  Cursor prev s ::
  match s with
  | a :: t => if f a then runs f (Some a) t else []
  | [] => []
  end.

Definition at_bol (multiline : bool) (c : cursor) : bool :=
  match before c with
  | None => true
  | Some a => multiline && is_line_terminator a
  end.

Definition at_eol (multiline : bool) (c : cursor) : bool :=
  match ahead c with
  | [] => true
  | a :: _ => multiline && is_line_terminator a
  end.

(** The characters between two positions of the same input. *)
Definition taken (c c' : cursor) : text :=
  firstn (List.length (ahead c) - List.length (ahead c')) (ahead c).

Fixpoint exec (multiline : bool) (r : regex) (caps : captures) (c : cursor)
  : list (captures * cursor) :=
  match r with
  | Lit s =>
      match eat (chars s) c with
      | Some c' => [(caps, c')]
      | None => []
      end
  | Class f =>
      match ahead c with
      | a :: t => if f a then [(caps, Cursor (Some a) t)] else []
      | [] => []
      end
  | Cat r1 r2 =>
      flat_map (fun m => exec multiline r2 (fst m) (snd m))
               (exec multiline r1 caps c)
  | Star greedy f =>
      let stops := runs f (before c) (ahead c) in
      map (pair caps) (if greedy then rev stops else stops)
  | Group n r =>
      map (fun m => ((n, taken c (snd m)) :: fst m, snd m))
          (exec multiline r caps c)
  | NotAhead r =>
      match exec multiline r caps c with
      | [] => [(caps, c)]
      | _ :: _ => []
      end
  | Bol => if at_bol multiline c then [(caps, c)] else []
  | Eol => if at_eol multiline c then [(caps, c)] else []
  end.

(** A match: the captures, where it starts and where it ends. *)
Record found : Type :=
  Found { groups : captures; start : cursor; stop : cursor }.

(** The leftmost match at or after a position. *)
Fixpoint search_from (multiline : bool) (r : regex)
         (prev : option ascii) (s : text) : option found :=
  match exec multiline r [] (Cursor prev s) with
  | m :: _ => Some (Found (fst m) (Cursor prev s) (snd m))
  | [] =>
      match s with
      | a :: t => search_from multiline r (Some a) t
      | [] => None
      end
  end.

Definition search (multiline : bool) (r : regex) (c : cursor) : option found :=
  search_from multiline r (before c) (ahead c).

Definition origin (s : text) : cursor := Cursor None s.

(** [r.test(s)] for an expression without the [g] flag. *)
Definition test (multiline : bool) (r : regex) (s : text) : bool :=
  match search multiline r (origin s) with
  | Some _ => true
  | None => false
  end.

(** [s.match(r)] for an expression without the [g] flag. *)
Definition match_ (multiline : bool) (r : regex) (s : text) : option captures :=
  option_map groups (search multiline r (origin s)).

(** The successive matches of an expression with the [g] flag, each search
    resuming where the last match stopped ([lastIndex]): the loop
    [while ((m = r.exec(s)) !== null)] and [s.matchAll(r)].  The two differ
    only after an empty match, which the expressions used here never
    produce; [fuel] bounds the number of matches. *)
Fixpoint exec_all (fuel : nat) (multiline : bool) (r : regex) (c : cursor)
  : list captures :=
  match fuel with
  | 0 => []
  | S fuel' =>
      match search multiline r c with
      | Some m => groups m :: exec_all fuel' multiline r (stop m)
      | None => []
      end
  end.

(** [s.replace(r, '')] for an expression without the [g] flag: the first
    match is cut out. *)
Definition remove_first (multiline : bool) (r : regex) (s : text) : text :=
  match search multiline r (origin s) with
  | Some m =>
      firstn (List.length s - List.length (ahead (start m))) s ++ ahead (stop m)
  | None => s
  end.

End RegExp.

Import RegExp.

Declare Scope regex_scope.
Delimit Scope regex_scope with re.
Notation "r1 ;; r2" := (Cat r1 r2) (at level 61, right associativity) : regex_scope.

(** ** JavaScript values *)

(** A string value.  A template literal keeps the numbers it interpolates as
    they are: how a number prints is not modelled. *)
Inductive piece : Type :=
| Txt (s : string)
| Shown (x : float).

Inductive value : Type :=
| VUndefined
| VNull
| VBool (b : bool)
| VNum (x : float)
| VStr (s : list piece)
| VArr (items : list value)
| VObj (fields : list (string * value)).

Definition str (s : string) : value := VStr [Txt s].

Definition piece_empty (p : piece) : bool :=
  match p with
  | Txt s => (String.length s =? 0)
  | Shown _ => false
  end.

(** ToBoolean *)
Definition truthy (v : value) : bool :=
  match v with
  | VUndefined | VNull => false
  | VBool b => b
  | VNum x => negb (PrimFloat.eqb x 0 || PrimFloat.is_nan x)
  | VStr s => negb (forallb piece_empty s)
  | VArr _ | VObj _ => true
  end.

(** [a && b] *)
Definition js_and (a b : value) : value := if truthy a then b else a.

(** ** The plan classifier (the plan-comment script) *)

Section PlanClassifier.

Local Open Scope regex_scope.
Local Open Scope string_scope.

(** [/Plan: (\d+) to add, (\d+) to change, (\d+) to destroy/] *)
Definition summaryPattern : regex :=
  Lit "Plan: " ;; Group 1 (Plus true is_digit) ;; Lit " to add, " ;;
  Group 2 (Plus true is_digit) ;; Lit " to change, " ;;
  Group 3 (Plus true is_digit) ;; Lit " to destroy".

(** [\s*\(known after apply\)], the body of the look-aheads *)
Definition computedValue : regex :=
  Star true is_space ;; Lit "(known after apply)".

(** [/~\s+(\w+)\s*=\s*.+?\s*->\s*(?!\s*\(known after apply\)).*/g] *)
Definition changePattern : regex :=
  Lit "~" ;; Plus true is_space ;; Group 1 (Plus true is_word) ;;
  Star true is_space ;; Lit "=" ;; Star true is_space ;;
  Plus false any_char ;; Star true is_space ;; Lit "->" ;;
  Star true is_space ;; NotAhead computedValue ;; Star true any_char.

(** [/^\s+\+\s+\w+\s*=\s*(?!\s*\(known after apply\)).+/m] *)
Definition additionPattern : regex :=
  Bol ;; Plus true is_space ;; Lit "+" ;; Plus true is_space ;;
  Plus true is_word ;; Star true is_space ;; Lit "=" ;; Star true is_space ;;
  NotAhead computedValue ;; Plus true any_char.

(** [/^\s+-\s+\w+\s*=\s*(?!.*->)(?!.*[\[{]\s*$).+$/m] *)
Definition deletionPattern : regex :=
  Bol ;; Plus true is_space ;; Lit "-" ;; Plus true is_space ;;
  Plus true is_word ;; Star true is_space ;; Lit "=" ;; Star true is_space ;;
  NotAhead (Star true any_char ;; Lit "->") ;;
  NotAhead (Star true any_char ;; Class (one_of "[{") ;;
            Star true is_space ;; Eol) ;;
  Plus true any_char ;; Eol.

(** [parseInt] on a string of decimal digits, as group 2 of the summary
    holds: the number read, or [None] (NaN) when the string does not start
    with a digit.  The script only asks whether the number is positive,
    which rounding to a double does not change. *)
Fixpoint digits_value (acc : N) (s : text) : N :=
  match s with
  | a :: s' =>
      if is_digit a then digits_value (10 * acc + N.of_nat (code a - 48)) s'
      else acc
  | [] => acc
  end.

Definition parseInt (s : text) : option N :=
  match s with
  | a :: _ => if is_digit a then Some (digits_value 0 s) else None
  | [] => None
  end.

Definition positive (n : option N) : bool :=
  match n with
  | Some k => (0 <? k)%N
  | None => false
  end.

Record ClassificationResult : Type := {
  shouldCollapse : bool;
  hasOnlyUpdates : value;
  changedAttrs : list string;
  hasRealAdditions : bool;
  hasRealDeletions : bool;
  hasResourceChanges : bool
}.

Definition codeAttrs : list string := ["content_sha256"; "content"].

Definition has (s : list string) (x : string) : bool :=
  existsb (String.eqb x) s.

Definition shouldCollapsePlan (plan : string) : ClassificationResult :=
  let planText := chars plan in
  let summaryMatch := match_ false summaryPattern planText in
  let hasOnlyUpdates :=
    match summaryMatch with
    | None => VNull
    | Some m =>
        VBool (text_eqb (capture 1 m) (chars "0") &&
               text_eqb (capture 3 m) (chars "0") &&
               positive (parseInt (capture 2 m)))
    end in
  let changedAttrs :=
    map (fun m => string_of_list_ascii (capture 1 m))
        (exec_all (S (List.length planText)) false changePattern (origin planText)) in
  let hasRealAdditions := test true additionPattern planText in
  let hasRealDeletions := test true deletionPattern planText in
  let isWorkerCodeOnly :=
    js_and hasOnlyUpdates
      (VBool (negb hasRealAdditions &&
              negb hasRealDeletions &&
              (0 <? List.length changedAttrs)%nat &&
              forallb (has codeAttrs) changedAttrs)) in
  let hasResourceChanges :=
    includes (chars "will be created") planText ||
    includes (chars "will be destroyed") planText ||
    includes (chars "must be replaced") planText in
  let shouldCollapse :=
    truthy (js_and isWorkerCodeOnly (VBool (negb hasResourceChanges))) in
  {| shouldCollapse := shouldCollapse;
     hasOnlyUpdates := hasOnlyUpdates;
     changedAttrs := changedAttrs;
     hasRealAdditions := hasRealAdditions;
     hasRealDeletions := hasRealDeletions;
     hasResourceChanges := hasResourceChanges |}.

End PlanClassifier.

(** ** The coverage gate (analyze-coverage-results.mjs) *)

(** *** What the module touches outside itself

    The file system, the JSON parser and the GitHub client are taken as they
    answer: a world says what each call returns, and [None] stands for a call
    that throws (a rejected promise).  A computation yields the calls it
    made, in order, and its outcome. *)

(** A fetched review: [review.user.login] and [review.state].  Every review
    is taken to come with its user object. *)
Record Review : Type := { login : string; state : string }.

Record world : Type := {
  (* fs.readFileSync(path, 'utf8') *)
  readFileSync : string -> option string;
  (* JSON.parse(fs.readFileSync(path, 'utf8')) *)
  readJSON : string -> option value;
  (* github.paginate(github.rest.pulls.listReviews, {owner, repo, pull_number}) *)
  listReviews : string -> string -> Z -> option (list Review)
}.

Inductive effect : Type :=
| ReadFile (path : string)
| ListReviews (owner repo : string) (pull_number : Z).

Definition M (A : Type) : Type := world -> list effect * option A.

Definition ret {A : Type} (a : A) : M A := fun _ => ([], Some a).

Definition bind {A B : Type} (m : M A) (k : A -> M B) : M B :=
  fun w =>
    match m w with
    | (t, Some a) => let (t', r) := k a w in (t ++ t', r)
    | (t, None) => (t, None)
    end.

Definition perform {A : Type} (e : effect) (answer : world -> option A) : M A :=
  fun w => ([e], answer w).

(** [try { m } catch { return a }] *)
Definition try_catch {A : Type} (m : M A) (a : A) : M A :=
  fun w =>
    match m w with
    | (t, Some x) => (t, Some x)
    | (t, None) => (t, Some a)
    end.

Definition trace {A : Type} (r : list effect * option A) : list effect := fst r.
Definition outcome {A : Type} (r : list effect * option A) : option A := snd r.

Declare Scope monad_scope.
Delimit Scope monad_scope with monad.
Notation "x <- m ;; k" := (bind m (fun x => k))
  (at level 61, m at next level, right associativity) : monad_scope.

(** *** The pull-request context *)

Record PullRequest : Type := {
  number : option Z;                 (* pull_request.number *)
  user_login : option string;        (* pull_request.user?.login *)
  labels : option (list string)      (* the name of each of pull_request.labels *)
}.

Record Context : Type := {
  pull_request : option PullRequest; (* context.payload.pull_request *)
  repo_owner : string;               (* context.repo.owner *)
  repo_repo : string                 (* context.repo.repo *)
}.

(** *** A [Set] of strings, in insertion order *)

Definition add (s : list string) (x : string) : list string :=
  if has s x then s else s ++ [x].

Definition size (s : list string) : nat := List.length s.

(** *** A [Map] from strings to strings, in insertion order *)

Fixpoint map_set (m : list (string * string)) (k v : string)
  : list (string * string) :=
  match m with
  | [] => [(k, v)]
  | (k', v') :: m' =>
      if String.eqb k' k then (k', v) :: m' else (k', v') :: map_set m' k v
  end.

Section CoverageGate.

Local Open Scope regex_scope.
Local Open Scope monad_scope.
Local Open Scope string_scope.

(** [[\w.\-]] *)
Definition handle_char (c : ascii) : bool := is_word c || one_of ".-" c.

(** [/@([\w.\-]+)/g] *)
Definition mentionPattern : regex :=
  Lit "@" ;; Group 1 (Plus true handle_char).

(** The body of [parseCodeowners]'s [try], on the content read. *)
Definition ownersOf (content : string) : list string :=
  fold_left
    (fun owners line =>
       if startsWith (chars "#") line || (List.length (trim line) =? 0)%nat
       then owners
       else
         let lineWithoutComment := hd [] (split "#"%char line) in
         let matches :=
           exec_all (S (List.length lineWithoutComment)) false mentionPattern
                    (origin lineWithoutComment) in
         fold_left
           (fun owners m => add owners (string_of_list_ascii (capture 1 m)))
           matches owners)
    (split (ascii_of_nat 10) (chars content)) [].

Definition defaultCodeownersPath : string := ".github/CODEOWNERS".

(** [None] is the [null] returned when the file cannot be read. *)
Definition parseCodeowners (codeownersPath : string) : M (option (list string)) :=
  try_catch
    (content <- perform (ReadFile codeownersPath)
                        (fun w => readFileSync w codeownersPath) ;;
     ret (Some (ownersOf content)))
    None.

(** [/-bot$/] *)
Definition botSuffix : regex := Lit "-bot" ;; Eol.

Definition meaningfulStates : list string :=
  ["APPROVED"; "CHANGES_REQUESTED"; "DISMISSED"].

(** [a !== b] for a string [a] and a possibly undefined [b] *)
Definition differs (a : string) (b : option string) : bool :=
  match b with
  | Some b' => negb (String.eqb a b')
  | None => true
  end.

(** [checkCodeownersApproval] from the point where the reviews are fetched
    and CODEOWNERS is parsed: no call leaves the module from there on. *)
Definition approvalFrom (reviews : list Review)
           (codeowners : option (list string)) (prAuthor : option string) : bool :=
  match codeowners with
  | None => false
  | Some codeowners =>
      if (size codeowners =? 0)%nat then false
      else
        let prAuthorBase :=
          match prAuthor with
          | Some a => string_of_list_ascii (remove_first false botSuffix (chars a))
          | None => ""
          end in
        let isSoleDev :=
          (size codeowners =? 1)%nat &&
          (match prAuthor with
           | Some a => has codeowners a
           | None => false
           end || has codeowners prAuthorBase) in
        if isSoleDev then true
        else
          let validReviews :=
            filter (fun r => differs (login r) prAuthor) reviews in
          let latestReviews :=
            fold_left
              (fun m review =>
                 if has meaningfulStates (state review)
                 then map_set m (login review) (state review)
                 else m)
              validReviews [] in
          existsb
            (fun entry =>
               String.eqb (snd entry) "APPROVED" && has codeowners (fst entry))
            latestReviews
  end.

Definition checkCodeownersApproval (context : Context) : M bool :=
  let pull_number :=
    match pull_request context with
    | Some pr => number pr
    | None => None
    end in
  match pull_number with
  | None => ret false
  | Some 0%Z => ret false
  | Some pull_number =>
      reviews <- perform
                   (ListReviews (repo_owner context) (repo_repo context) pull_number)
                   (fun w => listReviews w (repo_owner context) (repo_repo context)
                                         pull_number) ;;
      codeowners <- parseCodeowners defaultCodeownersPath ;;
      let prAuthor :=
        match pull_request context with
        | Some pr => user_login pr
        | None => None
        end in
      ret (approvalFrom reviews codeowners prAuthor)
  end.

(** [v.key] for the three fields the module reads from the parsed report;
    [None] is the TypeError of reading a property of [null].  A parsed
    object lists each of its keys once. *)
Fixpoint lookup (key : string) (fields : list (string * value)) : value :=
  match fields with
  | [] => VUndefined
  | (k, v) :: fields' => if String.eqb k key then v else lookup key fields'
  end.

Definition get (v : value) (key : string) : option value :=
  match v with
  | VUndefined | VNull => None
  | VObj fields => Some (lookup key fields)
  | VBool _ | VNum _ | VStr _ | VArr _ => Some VUndefined
  end.

(** [typeof v === 'number'] *)
Definition is_number (v : value) : bool :=
  match v with
  | VNum _ => true
  | _ => false
  end.

Definition as_number (v : value) : float :=
  match v with
  | VNum x => x
  | _ => PrimFloat.nan
  end.

(** [v === true] *)
Definition is_true (v : value) : bool :=
  match v with
  | VBool true => true
  | _ => false
  end.

Record CoverageData : Type := {
  percent : float;
  totalLines : float;
  parseError : bool;
  crashFallback : value     (* absent, so undefined, on a parse error *)
}.

Definition invalidReport : CoverageData :=
  {| percent := 0; totalLines := 0; parseError := true;
     crashFallback := VUndefined |}.

Definition getCoverageData (reportPath : string) : M CoverageData :=
  try_catch
    (data <- perform (ReadFile reportPath) (fun w => readJSON w reportPath) ;;
     total_percent_covered <- (fun _ => ([], get data "total_percent_covered")) ;;
     total_num_lines <- (fun _ => ([], get data "total_num_lines")) ;;
     if negb (is_number total_percent_covered) ||
        negb (is_number total_num_lines)
     then ret invalidReport
     else
       crash_fallback <- (fun _ => ([], get data "crash_fallback")) ;;
       ret {| percent := as_number total_percent_covered;
              totalLines := as_number total_num_lines;
              parseError := false;
              crashFallback := VBool (is_true crash_fallback) |})
    invalidReport.

Definition defaultReportPath : string := "coverage/diff-cover.json".

Definition num (x : float) : value := VNum x.

(** The object pushed on [telemetryEvents]. *)
Definition overrideEvent (event : string) (coveragePercent threshold : float)
           (has_approval : bool) : value :=
  VObj [("event", str event);
        ("actual_coverage", VNum coveragePercent);
        ("threshold", VNum threshold);
        ("has_approval", VBool has_approval)].

Definition analyzeCoverageResults
           (reportPath : string) (threshold : float) (context : Context)
  : M value :=
  data <- getCoverageData reportPath ;;
  let coveragePercent := percent data in
  if parseError data then
    ret (VObj [("shouldFail", VBool true);
               ("coveragePercent", VNum PrimFloat.nan);
               ("reason", str "Coverage report missing or invalid JSON");
               ("telemetryEvents", VArr [])])
  else if truthy (crashFallback data) then
    ret (VObj [("shouldFail", VBool true);
               ("coveragePercent", VNum PrimFloat.nan);
               ("reason", str "diff-cover exited non-zero (LCOV parse error or crash) — coverage check skipped is not permitted");
               ("telemetryEvents", VArr [])])
  else if PrimFloat.eqb (totalLines data) 0 then
    ret (VObj [("shouldFail", VBool false);
               ("coveragePercent", VNum 100);
               ("reason", str "No executable lines to cover (doc/config-only PR)");
               ("telemetryEvents", VArr [])])
  else
    let labels :=
      match pull_request context with
      | Some pr => match labels pr with Some l => l | None => [] end
      | None => []
      end in
    let hasOverrideLabel := existsb (String.eqb "coverage-override") labels in
    let belowThreshold := PrimFloat.ltb coveragePercent threshold in
    if negb belowThreshold then
      ret (VObj [("shouldFail", VBool false);
                 ("coveragePercent", VNum coveragePercent);
                 ("telemetryEvents", VArr [])])
    else if hasOverrideLabel then
      hasApproval <- checkCodeownersApproval context ;;
      if negb hasApproval then
        ret (VObj [("shouldFail", VBool true);
                   ("reason", str "coverage-override label requires CODEOWNERS approval");
                   ("coveragePercent", VNum coveragePercent);
                   ("telemetryEvents",
                    VArr [overrideEvent "coverage_override_without_approval"
                                        coveragePercent threshold false])])
      else
        ret (VObj [("shouldFail", VBool false);
                   ("reason", VStr [Txt "Coverage "; Shown coveragePercent;
                                    Txt "% below "; Shown threshold;
                                    Txt "% (override applied)"]);
                   ("coveragePercent", VNum coveragePercent);
                   ("overrideApplied", VBool true);
                   ("telemetryEvents",
                    VArr [overrideEvent "coverage_override_applied"
                                        coveragePercent threshold true])])
    else
      ret (VObj [("shouldFail", VBool true);
                 ("reason", VStr [Txt "Coverage "; Shown coveragePercent;
                                  Txt "% below "; Shown threshold;
                                  Txt "% threshold"]);
                 ("coveragePercent", VNum coveragePercent);
                 ("telemetryEvents", VArr [])]).

End CoverageGate.

(** ** Reading the matcher

    What a match is, said without the search: [matches r c c'] holds when the
    expression can take the input from position [c] to position [c']. *)

Module Denotation.

(** The character before the position reached by reading [w]. *)
Definition step_over (w : text) (prev : option ascii) : option ascii :=
  fold_left (fun _ a => Some a) w prev.

(** Reading [w] takes position [c] to position [c']. *)
Definition reads (c : cursor) (w : text) (c' : cursor) : Prop :=
  ahead c = w ++ ahead c' /\ before c' = step_over w (before c).

Definition all (f : ascii -> bool) (w : text) : Prop := forallb f w = true.

Fixpoint matches (multiline : bool) (r : regex) (c c' : cursor) : Prop :=
  match r with
  | Lit s => reads c (chars s) c'
  | Class f => exists a, f a = true /\ reads c [a] c'
  | Cat r1 r2 =>
      exists mid, matches multiline r1 c mid /\ matches multiline r2 mid c'
  | Star _ f => exists w, all f w /\ reads c w c'
  | Group _ r => matches multiline r c c'
  | NotAhead r => c' = c /\ ~ (exists c'', matches multiline r c c'')
  | Bol => c' = c /\ at_bol multiline c = true
  | Eol => c' = c /\ at_eol multiline c = true
  end.

(** Every match of the expression takes at least one character. *)
Definition consuming (r : regex) : Prop :=
  forall multiline c c',
    matches multiline r c c' ->
    List.length (ahead c') < List.length (ahead c).

End Denotation.

Import Denotation.

(** ** The vocabulary of the specification *)

(** The text [p] occurs in [s]. *)
Definition contains (p : string) (s : text) : Prop :=
  exists pre post, s = pre ++ chars p ++ post.

(** A non-empty run of decimal digits. *)
Definition numeral (d : text) : Prop := d <> [] /\ all is_digit d.

(** The plan has a summary line
    [Plan: <add> to add, <change> to change, <destroy> to destroy]. *)
Definition has_summary (plan : text) : Prop :=
  exists pre a b c post,
    numeral a /\ numeral b /\ numeral c /\
    plan = pre ++ chars "Plan: " ++ a ++ chars " to add, " ++ b ++
           chars " to change, " ++ c ++ chars " to destroy" ++ post.

(** [pre] ends where a line starts. *)
Definition line_start (pre : text) : Prop :=
  pre = [] \/ exists p a, pre = p ++ [a] /\ is_line_terminator a = true.

(** The value is the computed placeholder, after optional white space. *)
Definition computed (val : text) : Prop :=
  exists ws rest,
    all is_space ws /\ val = ws ++ chars "(known after apply)" ++ rest.

(** At a line start the plan reads [+ <name> = <value>]: white space, [+],
    white space, a name, [=] with optional white space around it, and a
    value of at least one character on that line that is not the computed
    placeholder.  [val] is the text from the value on. *)
Definition real_addition (plan : text) : Prop :=
  exists pre ws1 ws2 name ws3 ws4 val,
    plan = pre ++ ws1 ++ chars "+" ++ ws2 ++ name ++ ws3 ++ chars "=" ++
           ws4 ++ val /\
    line_start pre /\
    (ws1 <> [] /\ all is_space ws1) /\
    (ws2 <> [] /\ all is_space ws2) /\
    (name <> [] /\ all is_word name) /\
    all is_space ws3 /\ all is_space ws4 /\
    ~ computed val /\
    exists c rest, val = c :: rest /\ is_line_terminator c = false.

(** The line opens a multi-line block: its last character, white space
    apart, is a bracket or a brace. *)
Definition block_opener (line : text) : bool :=
  match rev (trim line) with
  | c :: _ => one_of "[{" c
  | [] => false
  end.

(** [hasRealAdditions] as the specification words it: some line is a
    single-line attribute addition whose value is not the placeholder, and
    it is not a block opener. *)
Definition spec_hasRealAdditions (plan : string) : bool :=
  existsb
    (fun line =>
       test false
            (Bol ;; Star true is_space ;; Lit "+" ;; Plus true is_space ;;
             Plus true is_word ;; Star true is_space ;; Lit "=" ;;
             Star true is_space ;; NotAhead (Lit "(known after apply)") ;;
             Plus true any_char)%re
            line &&
       negb (block_opener line))
    (split (ascii_of_nat 10) (chars plan)).

(** What [getCoverageData] returns, as a function of what reading and
    parsing the report gave. *)
Definition coverageOf (report : option value) : CoverageData :=
  match report with
  | Some data =>
      match get data "total_percent_covered", get data "total_num_lines",
            get data "crash_fallback" with
      | Some (VNum p), Some (VNum n), Some flag =>
          {| percent := p; totalLines := n; parseError := false;
             crashFallback := VBool (is_true flag) |}
      | _, _, _ => invalidReport
      end
  | None => invalidReport
  end.

(** [context.payload.pull_request?.number], when it is truthy. *)
Definition pullNumber (context : Context) : option Z :=
  match pull_request context with
  | Some pr =>
      match number pr with
      | Some 0%Z => None
      | other => other
      end
  | None => None
  end.

(** [context.payload.pull_request?.user?.login] *)
Definition prAuthorOf (context : Context) : option string :=
  match pull_request context with
  | Some pr => user_login pr
  | None => None
  end.

(** A meaningful review state. *)
Definition meaningful (s : string) : Prop :=
  s = "APPROVED"%string \/ s = "CHANGES_REQUESTED"%string \/ s = "DISMISSED"%string.

(** The latest meaningful review of [user], in fetch order, has state [s]:
    [user] left a review in state [s], a meaningful one, and none of the
    reviews [user] left after it is meaningful. *)
Definition latest_state (reviews : list Review) (user s : string) : Prop :=
  exists earlier r later,
    reviews = earlier ++ r :: later /\
    login r = user /\ state r = s /\ meaningful s /\
    forall r', In r' later -> login r' = user -> ~ meaningful (state r').

(** Some reviewer other than the author is an owner whose latest meaningful
    review is an approval. *)
Definition approved_by_codeowner
           (reviews : list Review) (author : option string) (owners : list string)
  : Prop :=
  exists user,
    Some user <> author /\ In user owners /\
    latest_state reviews user "APPROVED".

(** *** Sample inputs *)

Definition sampleWorld (report : option value) (codeowners : option string)
           (reviews : option (list Review)) : world :=
  {| readFileSync := fun _ => codeowners;
     readJSON := fun _ => report;
     listReviews := fun _ _ _ => reviews |}.

Definition sampleContext (author : string) (labels : list string) : Context :=
  {| pull_request :=
       Some {| number := Some 7%Z; user_login := Some author;
               labels := Some labels |};
     repo_owner := "acme"; repo_repo := "widgets" |}.

Definition pushContext : Context :=
  {| pull_request := None; repo_owner := "acme"; repo_repo := "widgets" |}.

(** The line feed and the double quote, as one-character strings. *)
Definition lf : string := String (ascii_of_nat 10) EmptyString.
Definition dq : string := String (ascii_of_nat 34) EmptyString.

(** [s] between double quotes. *)
Definition quoted (s : string) : string := (dq ++ s ++ dq)%string.

(** A plan that changes the code of one worker. *)
Definition codeOnlyPlan : string :=
  String.concat lf
    ["  # cloudflare_worker_script.api will be updated in-place";
     "  ~ resource " ++ quoted "cloudflare_worker_script" ++ " " ++
       quoted "api" ++ " {";
     "      ~ content_sha256 = " ++ quoted "abc" ++ " -> " ++ quoted "def";
     "      ~ content        = " ++ quoted "old" ++ " -> " ++ quoted "new";
     "        id             = " ++ quoted "x";
     "      + status         = (known after apply)";
     "      ~ etag           = " ++ quoted "x" ++ " -> (known after apply)";
     "    }";
     "";
     "Plan: 0 to add, 1 to change, 0 to destroy."]%string.

Definition report (percent lines : float) : value :=
  VObj [("total_percent_covered"%string, VNum percent);
        ("total_num_lines"%string, VNum lines)].

(** ** Telemetry (analyze-coverage-results.mjs, [sendTelemetry]) *)

(** The run's metadata, read from the action context next to the pull
    request. *)
Record RunContext : Type := {
  run_context : Context;
  run_workflow : string;             (* context.workflow *)
  run_runId : Z;                     (* context.runId *)
  run_sha : string;                  (* context.sha *)
  run_ref : string                   (* context.ref *)
}.

(** The object [{...eventData, timestamp, workflow, run_id, sha, ref,
    pr_number}] of the one-element array that is posted, kept by its
    parts. *)
Record TelemetryPayload : Type := {
  eventData : value;
  timestamp : string;
  workflow : string;
  run_id : Z;
  sha : string;
  ref : string;
  pr_number : option Z
}.

(** What [fetch] does with a request: a response, with its [ok] flag and
    status, or an exception with its message. *)
Inductive fetch_answer : Type :=
| Responded (ok : bool) (status : Z)
| Threw (message : string).

(** The network and the clock: the answer to the [i]-th request of the call
    and the time ([new Date().toISOString()]) of its [i]-th iteration. *)
Record Net : Type := {
  fetch : nat -> TelemetryPayload -> fetch_answer;
  now : nat -> string
}.

Inductive telemetry_effect : Type :=
| WarnNoToken                        (* AXIOM_TOKEN not set - skipping telemetry *)
| WarnSendFailed (status : Z)        (* Failed to send Axiom event: <status> *)
| WarnSendError (message : string)   (* Error sending Axiom event: <message> *)
| Post (token : string) (payload : TelemetryPayload).

(** The body of the [for] loop, for the event at index [i]. *)
Definition sendOne (axiomToken : string) (context : RunContext) (net : Net)
           (i : nat) (event : value) : list telemetry_effect :=
  let payload :=
    {| eventData := event;
       timestamp := now net i;
       workflow := run_workflow context;
       run_id := run_runId context;
       sha := run_sha context;
       ref := run_ref context;
       pr_number :=
         match pull_request (run_context context) with
         | Some pr => number pr
         | None => None
         end |} in
  Post axiomToken payload ::
  match fetch net i payload with
  | Responded true _ => []
  | Responded false status => [WarnSendFailed status]
  | Threw message => [WarnSendError message]
  end.

Fixpoint sendFrom (axiomToken : string) (context : RunContext) (net : Net)
         (i : nat) (events : list value) : list telemetry_effect :=
  match events with
  | [] => []
  | event :: rest =>
      sendOne axiomToken context net i event ++
      sendFrom axiomToken context net (S i) rest
  end.

(** [sendTelemetry({events, axiomToken, context, core})]: what it does, in
    order.  [None] is an undefined token. *)
Definition sendTelemetry (events : list value) (axiomToken : option string)
           (context : RunContext) (net : Net) : list telemetry_effect :=
  match axiomToken with
  | None => [WarnNoToken]
  | Some token =>
      if (String.length token =? 0)%nat then [WarnNoToken]
      else sendFrom token context net 0 events
  end.

(** ** The retry wrapper ([curl_with_retry])

    Shell integers are 64-bit and wrap around.  The temporary file that
    holds the output of the last invocation is kept as the loop's [last]
    result; its removal on return is left out. *)

Definition wrap64 (z : Z) : Z :=
  ((z + 2 ^ 63) mod 2 ^ 64 - 2 ^ 63)%Z.

(** [a << n]; the count is taken modulo 64, as the processor takes it. *)
Definition shl64 (a n : Z) : Z := wrap64 (a * 2 ^ (n mod 64))%Z.

(** What one invocation of [curl] gives: its exit code and what it wrote to
    the temporary file. *)
Record CurlResult : Type := { exit_code : Z; written : string }.

Inductive shell_effect : Type :=
| RunCurl                                     (* curl "$@" > "$stdout_file" *)
| PrintFile (content : string)                   (* cat "$stdout_file" *)
| WarnRetry (code attempt max delay : Z)      (* ... retry <attempt>/<max> in <delay>s *)
| Sleep (delay : Z)
| WarnExhausted (max code : Z).               (* curl failed after <max> attempts *)

(** [7|28|56] *)
Definition retryable (code : Z) : bool :=
  (code =? 7)%Z || (code =? 28)%Z || (code =? 56)%Z.

(** [$(( CURL_RETRY_BASE_DELAY * (1 << (attempt - 1)) ))] *)
Definition delayFor (CURL_RETRY_BASE_DELAY attempt : Z) : Z :=
  wrap64 (CURL_RETRY_BASE_DELAY * shl64 1 (wrap64 (attempt - 1)))%Z.

(** The [while] loop: [curl k] is the [k]-th invocation, [attempt] and
    [last] the shell variables [attempt] and the last result, [fuel] a bound
    on the iterations.  It yields what was done and the function's status,
    or [None] when the fuel gave out. *)
Fixpoint retryLoop (fuel : nat) (CURL_RETRY_MAX CURL_RETRY_BASE_DELAY : Z)
         (curl : nat -> CurlResult) (k : nat) (attempt : Z) (last : CurlResult)
  : list shell_effect * option Z :=
  if (attempt <=? CURL_RETRY_MAX)%Z then
    match fuel with
    | 0 => ([], None)
    | S fuel' =>
        let result := curl k in
        if (exit_code result =? 0)%Z then
          ([RunCurl; PrintFile (written result)], Some 0%Z)
        else if negb (retryable (exit_code result)) then
          ([RunCurl; PrintFile (written result)], Some (exit_code result))
        else
          let waiting :=
            if (attempt <? CURL_RETRY_MAX)%Z then
              let delay := delayFor CURL_RETRY_BASE_DELAY attempt in
              [WarnRetry (exit_code result) attempt CURL_RETRY_MAX delay;
               Sleep delay]
            else [] in
          let (rest, status) :=
            retryLoop fuel' CURL_RETRY_MAX CURL_RETRY_BASE_DELAY curl (S k)
                      (wrap64 (attempt + 1)) result in
          (RunCurl :: waiting ++ rest, status)
    end
  else
    ([PrintFile (written last); WarnExhausted CURL_RETRY_MAX (exit_code last)],
     Some (exit_code last)).

(** [${CURL_RETRY_MAX:-3}] and [${CURL_RETRY_BASE_DELAY:-1}] *)
Definition orDefault (setting : option Z) (default : Z) : Z :=
  match setting with
  | Some z => z
  | None => default
  end.

(** [curl_with_retry], with fuel for as many iterations as the loop can
    make. *)
Definition curl_with_retry (CURL_RETRY_MAX CURL_RETRY_BASE_DELAY : Z)
           (curl : nat -> CurlResult) : list shell_effect * option Z :=
  retryLoop (Z.to_nat CURL_RETRY_MAX) CURL_RETRY_MAX CURL_RETRY_BASE_DELAY
            curl 0 1 {| exit_code := 0; written := "" |}.

(** ** The plan comment ([formatPlanComment])

    A comment body holds any code unit, so bodies are lists of code units;
    the texts the function is given are embedded by [units]. *)

Definition utext := list N.

Definition units (s : string) : utext := map N_of_ascii (chars s).

Fixpoint startsWithU (p s : utext) : bool :=
  match p, s with
  | [], _ => true
  | x :: p', y :: s' => (x =? y)%N && startsWithU p' s'
  | _ :: _, [] => false
  end.

(** [s.includes(p)] on code units *)
Fixpoint includesU (p s : utext) : bool :=
  startsWithU p s ||
  match s with
  | [] => false
  | _ :: s' => includesU p s'
  end.

Record Comment : Type := { comment_id : Z; comment_body : utext }.

(** The calls the function makes, in order. *)
Inductive comment_effect : Type :=
| Log                                       (* Skipping PR comment: ... *)
| ListComments
| DeleteComment (id : Z)
| ReadPlan (path : string)
| UpdateComment (id : Z) (body : utext)
| CreateComment (body : utext).

(** The comments of the issue after [deleteComment], [updateComment] and
    [createComment], where [id] is the id the service gives the new
    comment. *)
Definition deleteComment (store : list Comment) (id : Z) : list Comment :=
  filter (fun c => negb (comment_id c =? id)%Z) store.

Definition updateComment (store : list Comment) (id : Z) (body : utext)
  : list Comment :=
  map (fun c => if (comment_id c =? id)%Z
                then {| comment_id := id; comment_body := body |}
                else c)
      store.

Definition createComment (store : list Comment) (id : Z) (body : utext)
  : list Comment :=
  store ++ [{| comment_id := id; comment_body := body |}].

Record PlanCommentArgs : Type := {
  issue_number : option Z;           (* context.issue?.number *)
  planFilePath : string;
  exitcode : string;
  marker : option string;
  enableCollapse : bool;
  actor : string;
  moduleName : string
}.

(** What a call leaves behind: the calls made, the comments of the issue,
    and whether it returned ([false]: it threw). *)
Record PlanCommentRun : Type := {
  calls : list comment_effect;
  comments : list Comment;
  returned : bool
}.

(** [plan.slice(0, 60000)] *)
Definition sliceLimit : nat := N.to_nat 60000.

Definition planSlice (plan : string) : utext :=
  map N_of_ascii (firstn sliceLimit (chars plan)).

Definition fence : string := "```".

Definition heading (moduleName : string) : utext :=
  units (lf ++ "#### Terraform Plan (" ++ moduleName ++ ")" ++ lf ++ lf).

Definition signature (timestamp actor : string) : utext :=
  units ("*Updated: " ++ timestamp ++ " by @" ++ actor ++ "*").

Definition collapsedBody (marker moduleName plan timestamp actor : string)
  : utext :=
  units marker ++ heading moduleName ++
  [226; 339; 8230]%N ++
  units (" Worker build successful. Code changes will deploy on merge." ++
         lf ++ lf) ++
  units ("<details><summary>Plan details</summary>" ++ lf ++ lf ++ fence ++ lf) ++
  planSlice plan ++
  units (lf ++ fence ++ lf ++ "</details>" ++ lf ++ lf) ++
  signature timestamp actor.

Definition fullBody (marker moduleName plan timestamp actor : string) : utext :=
  units marker ++ heading moduleName ++
  units (fence ++ lf) ++ planSlice plan ++ units (lf ++ fence ++ lf ++ lf) ++
  signature timestamp actor.

(** [c.body.includes(marker)] *)
Definition mentions (marker : string) (c : Comment) : bool :=
  includesU (units marker) (comment_body c).

(** The plan text and the comment body the function builds from it; [now]
    is the time of the call. *)
Definition planText (args : PlanCommentArgs) (w : world) : string :=
  match readFileSync w (planFilePath args) with
  | Some content => content
  | None => "Error reading plan output. Check workflow logs."
  end.

Definition planBody (marker : string) (args : PlanCommentArgs) (w : world)
           (now : string) : utext :=
  let plan := planText args w in
  let shouldCollapse :=
    if enableCollapse args
    then shouldCollapse (shouldCollapsePlan plan)
    else false in
  if shouldCollapse
  then collapsedBody marker (moduleName args) plan now (actor args)
  else fullBody marker (moduleName args) plan now (actor args).

(** [formatPlanComment] on the comments [store] of the issue; [now] is the
    time of the call and [newId] the id a created comment gets. *)
Definition formatPlanComment (args : PlanCommentArgs) (w : world)
           (now : string) (newId : Z) (store : list Comment) : PlanCommentRun :=
  match issue_number args with
  | None | Some 0%Z =>
      {| calls := [Log]; comments := store; returned := true |}
  | Some _ =>
      match marker args with
      | None => {| calls := []; comments := store; returned := false |}
      | Some marker =>
          if (List.length (trim (chars marker)) =? 0)%nat then
            {| calls := []; comments := store; returned := false |}
          else if String.eqb (exitcode args) "0" then
            let matching := filter (mentions marker) store in
            {| calls :=
                 ListComments ::
                 map (fun c => DeleteComment (comment_id c)) matching;
               comments :=
                 fold_left (fun s c => deleteComment s (comment_id c))
                           matching store;
               returned := true |}
          else
            let body := planBody marker args w now in
            match find (mentions marker) store with
            | Some existing =>
                {| calls := [ReadPlan (planFilePath args); ListComments;
                             UpdateComment (comment_id existing) body];
                   comments := updateComment store (comment_id existing) body;
                   returned := true |}
            | None =>
                {| calls := [ReadPlan (planFilePath args); ListComments;
                             CreateComment body];
                   comments := createComment store newId body;
                   returned := true |}
            end
      end
  end.

(** The arguments pass the two guards: there is an issue number and a
    marker that is not blank. *)
Definition usable (args : PlanCommentArgs) (m : string) : Prop :=
  (exists n, issue_number args = Some n /\ n <> 0%Z) /\
  marker args = Some m /\
  trim (chars m) <> [].

Definition ids (store : list Comment) : list Z := map comment_id store.

(** *** Reading the traces *)

(** The requests of a telemetry trace, each with its token. *)
Fixpoint posts (t : list telemetry_effect) : list (string * TelemetryPayload) :=
  match t with
  | [] => []
  | Post token payload :: t' => (token, payload) :: posts t'
  | _ :: t' => posts t'
  end.

(** The payload [sendTelemetry] builds for an event at time [time]. *)
Definition payloadOf (context : RunContext) (time : string) (event : value)
  : TelemetryPayload :=
  {| eventData := event;
     timestamp := time;
     workflow := run_workflow context;
     run_id := run_runId context;
     sha := run_sha context;
     ref := run_ref context;
     pr_number :=
       match pull_request (run_context context) with
       | Some pr => number pr
       | None => None
       end |}.

(** The payloads for the events from index [i] on. *)
Fixpoint payloadsFrom (context : RunContext) (net : Net) (i : nat)
         (events : list value) : list TelemetryPayload :=
  match events with
  | [] => []
  | event :: rest =>
      payloadOf context (now net i) event :: payloadsFrom context net (S i) rest
  end.

(** The invocations of [curl] in a trace of the retry wrapper. *)
Definition invocations (t : list shell_effect) : nat :=
  List.length (filter (fun e => match e with RunCurl => true | _ => false end) t).

(** [n] rounds of the loop that fail with a retryable code and wait, from
    invocation [k] and attempt number [attempt]. *)
Fixpoint retryRounds (CURL_RETRY_MAX CURL_RETRY_BASE_DELAY : Z)
         (curl : nat -> CurlResult) (k : nat) (attempt : Z) (n : nat)
  : list shell_effect :=
  match n with
  | 0 => []
  | S n' =>
      [RunCurl;
       WarnRetry (exit_code (curl k)) attempt CURL_RETRY_MAX
                 (delayFor CURL_RETRY_BASE_DELAY attempt);
       Sleep (delayFor CURL_RETRY_BASE_DELAY attempt)] ++
      retryRounds CURL_RETRY_MAX CURL_RETRY_BASE_DELAY curl (S k)
                  (attempt + 1) n'
  end.

(** A [curl] that fails with code 7 on its first [n] invocations and then
    gives [result]. *)
Definition failsThen (n : nat) (result : CurlResult) (k : nat) : CurlResult :=
  if (k <? n)%nat then {| exit_code := 7; written := "partial" |} else result.

(** Sample arguments and comments for the plan comment. *)
Definition sampleArgs (code : string) : PlanCommentArgs :=
  {| issue_number := Some 12%Z;
     planFilePath := "plan.txt";
     exitcode := code;
     marker := Some "<!-- tf-plan:workers -->"%string;
     enableCollapse := true;
     actor := "alice";
     moduleName := "cloudflare-workers" |}.

Definition sampleStore : list Comment :=
  [ {| comment_id := 1; comment_body := units "LGTM" |};
    {| comment_id := 2;
       comment_body := units "<!-- tf-plan:workers --> an older plan" |} ].

(** *** Deletions, in the vocabulary of the specification *)

(** [tail] starts where a line ends. *)
Definition line_end (tail : text) : Prop :=
  tail = [] \/ exists t r, tail = t :: r /\ is_line_terminator t = true.

(** The line ends in an opening bracket or brace, white space apart. *)
Definition opens_block (line : text) : Prop :=
  exists p b q, line = p ++ b :: q /\ one_of "[{" b = true /\ all is_space q.

(** At a line start the plan reads [- <name> = <value>], with a value that
    runs to the end of its line, holds no arrow [->] and does not open a
    block. *)
Definition real_deletion (plan : text) : Prop :=
  exists pre ws1 ws2 name ws3 ws4 line tail,
    plan = pre ++ ws1 ++ chars "-" ++ ws2 ++ name ++ ws3 ++ chars "=" ++
           ws4 ++ line ++ tail /\
    line_start pre /\
    (ws1 <> [] /\ all is_space ws1) /\
    (ws2 <> [] /\ all is_space ws2) /\
    (name <> [] /\ all is_word name) /\
    all is_space ws3 /\ all is_space ws4 /\
    (line <> [] /\ all any_char line) /\
    line_end tail /\
    ~ contains "->" line /\
    ~ opens_block line.

Section EngineFacts.

Lemma step_over_app (u v : text) (prev : option ascii) :
  step_over (u ++ v) prev = step_over v (step_over u prev).
Proof. unfold step_over. apply fold_left_app. Qed.

Lemma cursor_eq (c c' : cursor) :
  before c = before c' -> ahead c = ahead c' -> c = c'.
Proof. destruct c, c'; simpl; intros; subst; reflexivity. Qed.

Lemma reads_nil (c : cursor) : reads c [] c.
Proof. split; reflexivity. Qed.

Lemma reads_nil_inv (c c' : cursor) : reads c [] c' -> c' = c.
Proof. intros [H1 H2]. apply cursor_eq; simpl in *; congruence. Qed.

Lemma reads_app (c mid c' : cursor) (u v : text) :
  reads c u mid -> reads mid v c' -> reads c (u ++ v) c'.
Proof.
  intros [H1 H2] [H3 H4]. split.
  - rewrite H1, H3. apply app_assoc.
  - rewrite step_over_app. congruence.
Qed.

Lemma reads_split (c c' : cursor) (u v : text) :
  reads c (u ++ v) c' ->
  exists mid, reads c u mid /\ reads mid v c'.
Proof.
  intros [H1 H2]. exists (Cursor (step_over u (before c)) (v ++ ahead c')).
  split; split; simpl; auto.
  - now rewrite H1, app_assoc.
  - now rewrite <- step_over_app.
Qed.

Lemma eat_reads (s : text) (c c' : cursor) :
  eat s c = Some c' <-> reads c s c'.
Proof.
  revert c. induction s as [|a s IH]; intros c; simpl.
  - split.
    + intros H; inversion H; subst. apply reads_nil.
    + intros H. apply reads_nil_inv in H. now subst.
  - destruct c as [prev [|b t]]; simpl.
    + split; [discriminate|]. intros [H _]. discriminate.
    + destruct (Ascii.eqb_spec a b) as [->|Hne].
      * rewrite IH. unfold reads; simpl. split.
        -- intros [H1 H2]. split; [now f_equal | exact H2].
        -- intros [H1 H2]. split; [now inversion H1 | exact H2].
      * split; [discriminate|]. intros [H _]. simpl in H. congruence.
Qed.

Lemma runs_reads (f : ascii -> bool) (prev : option ascii) (s : text) (c' : cursor) :
  In c' (runs f prev s) <->
  exists w, all f w /\ reads (Cursor prev s) w c'.
Proof.
  revert prev. induction s as [|a t IH]; intros prev.
  - simpl. split.
    + intros [<-|[]]. exists []. split; [reflexivity | apply reads_nil].
    + intros (w & Hw & H1 & H2). simpl in *. left.
      destruct w; [|discriminate]. apply cursor_eq; simpl; auto.
  - cbn [runs In]. split.
    + intros [<-|H].
      * exists []. split; [reflexivity | apply reads_nil].
      * destruct (f a) eqn:Fa; [|destruct H].
        apply IH in H. destruct H as (w & Hw & H1 & H2). simpl in *.
        exists (a :: w). split; [unfold all; simpl; now rewrite Fa|].
        split; simpl; [now f_equal | exact H2].
    + intros (w & Hw & H1 & H2). simpl in *. destruct w as [|b w].
      * left. apply cursor_eq; simpl; auto.
      * right. simpl in H1. injection H1 as Hb Ht. subst b.
        unfold all in Hw. simpl in Hw. apply andb_true_iff in Hw as [Fa Hw].
        rewrite Fa. apply IH. exists w. split; [exact Hw|].
        split; simpl; auto.
Qed.

(** The search and the denotation agree: the expression can stop at [c']
    exactly when [exec] lists [c'], whatever the captures. *)
Lemma exec_matches (multiline : bool) (r : regex) :
  forall caps c c',
    (exists caps', In (caps', c') (exec multiline r caps c)) <->
    matches multiline r c c'.
Proof.
  induction r as [s|f|r1 IH1 r2 IH2|g f|n r IH|r IH| |]; intros caps c c'; simpl.
  - rewrite <- eat_reads. destruct (eat (chars s) c) as [d|]; simpl.
    + split.
      * intros (caps' & [H|[]]). inversion H; subst; reflexivity.
      * intros H. inversion H; subst. exists caps. now left.
    + split; [intros (_ & []) | discriminate].
  - destruct c as [prev [|a t]]; simpl.
    + split; [intros (_ & []) | intros (a & _ & H & _); discriminate].
    + split.
      * intros (caps' & H). destruct (f a) eqn:Fa; [|destruct H].
        destruct H as [H|[]]. inversion H; subst.
        exists a. split; [exact Fa | split; reflexivity].
      * intros (b & Fb & H1 & H2). simpl in *. inversion H1; subst b.
        rewrite Fb. exists caps. left. f_equal.
        apply cursor_eq; simpl; auto.
  - split.
    + intros (caps' & H). apply in_flat_map in H as ([caps1 mid] & H1 & H2).
      exists mid. split.
      * apply (IH1 caps c mid). now exists caps1.
      * apply (IH2 caps1 mid c'). now exists caps'.
    + intros (mid & H1 & H2).
      apply (IH1 caps c mid) in H1 as (caps1 & H1).
      apply (IH2 caps1 mid c') in H2 as (caps' & H2).
      exists caps'. apply in_flat_map. exists (caps1, mid). now split.
  - assert (E : forall l, (exists caps' : captures, In (caps', c') (map (pair caps) l))
                          <-> In c' l).
    { intros l. split.
      - intros (caps' & H). apply in_map_iff in H as (x & Hx & Hin).
        inversion Hx; subst. exact Hin.
      - intros H. exists caps. apply in_map_iff. now exists c'. }
    rewrite E. destruct c as [prev s]. simpl.
    destruct g; [rewrite <- in_rev|]; apply runs_reads.
  - rewrite <- (IH caps c c'). split.
    + intros (caps' & H). apply in_map_iff in H as ([caps1 d] & Hx & Hin).
      simpl in Hx. inversion Hx; subst. now exists caps1.
    + intros (caps1 & H). exists ((n, taken c c') :: caps1).
      apply in_map_iff. exists (caps1, c'). now split.
  - split.
    + intros (caps' & H). destruct (exec multiline r caps c) as [|m l] eqn:E.
      * destruct H as [H|[]]. injection H as _ Hc. subst c'.
        split; [reflexivity|].
        intros (c'' & Hm). apply (IH caps c c'') in Hm as (caps'' & Hin).
        rewrite E in Hin. destruct Hin.
      * destruct H.
    + intros (-> & Hno). destruct (exec multiline r caps c) as [|[caps1 d] l] eqn:E.
      * exists caps. now left.
      * exfalso. apply Hno. exists d. apply (IH caps c d). exists caps1.
        rewrite E. now left.
  - destruct (at_bol multiline c).
    + split.
      * intros (caps' & [H|[]]). inversion H; subst. now split.
      * intros (-> & _). exists caps. now left.
    + split; [intros (_ & []) | intros (_ & H); discriminate].
  - destruct (at_eol multiline c).
    + split.
      * intros (caps' & [H|[]]). inversion H; subst. now split.
      * intros (-> & _). exists caps. now left.
    + split; [intros (_ & []) | intros (_ & H); discriminate].
Qed.

(** The search finds a match exactly when some position has one. *)
Lemma search_from_found (multiline : bool) (r : regex) (s : text) :
  forall prev m,
    search_from multiline r prev s = Some m ->
    exists pre,
      reads (Cursor prev s) pre (start m) /\
      In (groups m, stop m) (exec multiline r [] (start m)).
Proof.
  induction s as [|a t IH]; intros prev m; simpl.
  - destruct (exec multiline r [] (Cursor prev [])) as [|x l] eqn:E; [discriminate|].
    intros H. inversion H; subst; simpl. exists []. split; [apply reads_nil|].
    rewrite E. left. now destruct x.
  - destruct (exec multiline r [] (Cursor prev (a :: t))) as [|x l] eqn:E.
    + intros H. apply IH in H as (pre & Hr & Hin). exists (a :: pre).
      split; [|exact Hin]. destruct Hr as [H1 H2]. simpl in *.
      split; simpl; [now f_equal | exact H2].
    + intros H. inversion H; subst; simpl. exists []. split; [apply reads_nil|].
      rewrite E. left. now destruct x.
Qed.

Lemma search_from_none (multiline : bool) (r : regex) (s : text) :
  forall prev,
    search_from multiline r prev s = None ->
    forall pre c, reads (Cursor prev s) pre c -> exec multiline r [] c = [].
Proof.
  induction s as [|a t IH]; intros prev; simpl.
  - destruct (exec multiline r [] (Cursor prev [])) as [|x l] eqn:E; [|discriminate].
    intros _ pre c [H1 H2]. simpl in *. destruct pre; [|discriminate].
    replace c with (Cursor prev []); [exact E|].
    apply cursor_eq; simpl; auto.
  - destruct (exec multiline r [] (Cursor prev (a :: t))) as [|x l] eqn:E; [|discriminate].
    intros H pre c [H1 H2]. simpl in *. destruct pre as [|b pre].
    + replace c with (Cursor prev (a :: t)); [exact E|].
      apply cursor_eq; simpl; auto.
    + simpl in H1. inversion H1; subst b.
      apply (IH (Some a) H pre c). split; simpl; auto.
Qed.

(** [test] in terms of the denotation: some split of the text has a match
    starting at it. *)
Lemma test_matches (multiline : bool) (r : regex) (s : text) :
  test multiline r s = true <->
  exists pre c c', reads (origin s) pre c /\ matches multiline r c c'.
Proof.
  unfold test, search, origin. simpl. split.
  - destruct (search_from multiline r None s) as [m|] eqn:E; [|discriminate].
    intros _. apply search_from_found in E as (pre & Hr & Hin).
    exists pre, (start m), (stop m). split; [exact Hr|].
    apply (exec_matches multiline r [] (start m) (stop m)). now exists (groups m).
  - intros (pre & c & c' & Hr & Hm).
    destruct (search_from multiline r None s) as [m|] eqn:E; [reflexivity|].
    apply (exec_matches multiline r [] c c') in Hm as (caps' & Hin).
    rewrite (search_from_none multiline r s None E pre c Hr) in Hin. destruct Hin.
Qed.

(** *** The loops over successive matches end

    A match never moves backwards, and an expression that starts with a
    literal character moves forwards; for such an expression the fuel given
    to [exec_all] is never used up. *)

Lemma matches_reads (multiline : bool) (r : regex) :
  forall c c', matches multiline r c c' -> exists w, reads c w c'.
Proof.
  induction r as [s|f|r1 IH1 r2 IH2|g f|n r IH|r IH| |]; intros c c'; simpl.
  - intros H. now exists (chars s).
  - intros (a & _ & H). now exists [a].
  - intros (mid & H1 & H2). apply IH1 in H1 as (u & H1).
    apply IH2 in H2 as (v & H2). exists (u ++ v). eapply reads_app; eauto.
  - intros (w & _ & H). now exists w.
  - apply IH.
  - intros (-> & _). exists []. apply reads_nil.
  - intros (-> & _). exists []. apply reads_nil.
  - intros (-> & _). exists []. apply reads_nil.
Qed.

Lemma reads_length (c c' : cursor) (w : text) :
  reads c w c' ->
  List.length (ahead c) = List.length w + List.length (ahead c').
Proof. intros [E _]. rewrite E. apply length_app. Qed.

Lemma literal_first_consuming (a : ascii) (r : regex) :
  consuming (Cat (Lit (String a EmptyString)) r).
Proof.
  intros multiline c c' (mid & H1 & H2). apply reads_length in H1.
  apply matches_reads in H2 as (w & H2). apply reads_length in H2.
  simpl in H1. lia.
Qed.

Lemma exec_all_fuel (multiline : bool) (r : regex) :
  consuming r ->
  forall fuel fuel' c,
    List.length (ahead c) < fuel ->
    List.length (ahead c) < fuel' ->
    exec_all fuel multiline r c = exec_all fuel' multiline r c.
Proof.
  intros Hr. induction fuel as [|fuel IH]; intros fuel' c H H'; [lia|].
  destruct fuel' as [|fuel']; [lia|]. cbn [exec_all]. unfold search.
  destruct (search_from multiline r (before c) (ahead c)) as [m|] eqn:E;
    [|reflexivity].
  f_equal. apply search_from_found in E as (pre & Hpre & Hin).
  assert (Hm : matches multiline r (start m) (stop m)).
  { apply (exec_matches multiline r [] (start m) (stop m)). now exists (groups m). }
  apply Hr in Hm. apply reads_length in Hpre. cbn [ahead] in Hpre.
  apply IH; lia.
Qed.

End EngineFacts.

Section PlanFacts.

Lemma matches_Plus (multiline greedy : bool) (f : ascii -> bool) (c c' : cursor) :
  matches multiline (Plus greedy f) c c' <->
  exists w, (w <> [] /\ all f w) /\ reads c w c'.
Proof.
  simpl. split.
  - intros (mid & (a & Fa & H1) & (w & Hw & H2)).
    exists ([a] ++ w). split.
    + split; [discriminate|]. unfold all in *. simpl. now rewrite Fa.
    + eapply reads_app; eauto.
  - intros (w & (Hne & Hw) & H). destruct w as [|a w]; [congruence|].
    unfold all in Hw. simpl in Hw. apply andb_true_iff in Hw as [Fa Hw].
    apply (reads_split c c' [a] w) in H as (mid & H1 & H2).
    exists mid. split; [exists a | exists w]; auto.
Qed.

Lemma startsWith_spec (p s : text) :
  startsWith p s = true <-> exists post, s = p ++ post.
Proof.
  revert s. induction p as [|a p IH]; intros s; simpl.
  - split; [intros _; now exists s | reflexivity].
  - destruct s as [|b s].
    + split; [discriminate | intros (post & H); discriminate].
    + rewrite andb_true_iff, IH. split.
      * intros [E (post & ->)]. apply Ascii.eqb_eq in E as ->. now exists post.
      * intros (post & H). injection H as -> ->. split.
        -- apply Ascii.eqb_refl.
        -- now exists post.
Qed.

Lemma includes_contains (p : string) (s : text) :
  includes (chars p) s = true <-> contains p s.
Proof.
  unfold contains. induction s as [|a s IH].
  - simpl. rewrite orb_false_r, startsWith_spec. split.
    + intros (post & H). now exists [], post.
    + intros (pre & post & H). destruct pre; [now exists post|discriminate].
  - cbn [includes]. rewrite orb_true_iff, startsWith_spec, IH. split.
    + intros [(post & H)|(pre & post & H)].
      * now exists [], post.
      * exists (a :: pre), post. simpl. now f_equal.
    + intros (pre & post & H). destruct pre as [|b pre].
      * left. now exists post.
      * right. simpl in H. injection H as _ H. now exists pre, post.
Qed.

(** Reading on from a position whose text is known. *)
Lemma reads_ahead (prev : option ascii) (w rest : text) :
  reads (Cursor prev (w ++ rest)) w (Cursor (step_over w prev) rest).
Proof. split; reflexivity. Qed.

Lemma summary_matches (c : cursor) :
  (exists c', matches false summaryPattern c c') <->
  exists a b d post,
    numeral a /\ numeral b /\ numeral d /\
    ahead c = chars "Plan: " ++ a ++ chars " to add, " ++ b ++
              chars " to change, " ++ d ++ chars " to destroy" ++ post.
Proof.
  unfold summaryPattern. cbn [matches]. split.
  - intros (c' & m1 & H1 & m2 & H2 & m3 & H3 & m4 & H4 & m5 & H5 & m6 & H6 & H7).
    apply matches_Plus in H2 as (a & Na & [E2 _]).
    apply matches_Plus in H4 as (b & Nb & [E4 _]).
    apply matches_Plus in H6 as (d & Nd & [E6 _]).
    destruct H1 as [E1 _], H3 as [E3 _], H5 as [E5 _], H7 as [E7 _].
    exists a, b, d, (ahead c'). repeat (split; [assumption|]).
    now rewrite E1, E2, E3, E4, E5, E6, E7.
  - intros (a & b & d & post & Na & Nb & Nd & E).
    destruct c as [prev s]. cbn [ahead] in E. subst s.
    eexists. eexists. split; [apply reads_ahead|].
    eexists. split; [apply matches_Plus; exists a; split;
                     [exact Na | apply reads_ahead]|].
    eexists. split; [apply reads_ahead|].
    eexists. split; [apply matches_Plus; exists b; split;
                     [exact Nb | apply reads_ahead]|].
    eexists. split; [apply reads_ahead|].
    eexists. split; [apply matches_Plus; exists d; split;
                     [exact Nd | apply reads_ahead]|].
    apply reads_ahead.
Qed.

(** [plan.match(summary)] is [null] exactly when the plan has no summary
    line. *)
Lemma summaryMatch_none (plan : text) :
  match_ false summaryPattern plan = None <-> ~ has_summary plan.
Proof.
  unfold match_, search, origin, has_summary. cbn [before ahead]. split.
  - destruct (search_from false summaryPattern None plan) as [m|] eqn:E;
      [discriminate|].
    intros _ (pre & a & b & d & post & Na & Nb & Nd & H).
    assert (Hm : exists c', matches false summaryPattern
                              (Cursor (step_over pre None)
                                      (chars "Plan: " ++ a ++ chars " to add, " ++ b ++
                                       chars " to change, " ++ d ++
                                       chars " to destroy" ++ post)) c').
    { apply summary_matches. now exists a, b, d, post. }
    destruct Hm as (c' & Hm).
    apply (exec_matches false summaryPattern [] _ c') in Hm as (caps' & Hin).
    rewrite (search_from_none false summaryPattern plan None E pre _) in Hin.
    + destruct Hin.
    + split; [exact H | reflexivity].
  - intros Hno.
    destruct (search_from false summaryPattern None plan) as [m|] eqn:E;
      [|reflexivity].
    exfalso. apply Hno.
    apply search_from_found in E as (pre & [H1 H2] & Hin).
    assert (Hm : exists c', matches false summaryPattern (start m) c').
    { exists (stop m). apply (exec_matches false summaryPattern [] (start m) (stop m)).
      now exists (groups m). }
    apply summary_matches in Hm as (a & b & d & post & Na & Nb & Nd & E).
    exists pre, a, b, d, post. repeat (split; [assumption|]).
    cbn [ahead] in H1. now rewrite H1, E.
Qed.

Lemma step_over_last (p : text) (a : ascii) (prev : option ascii) :
  step_over (p ++ [a]) prev = Some a.
Proof. now rewrite step_over_app. Qed.

Lemma at_bol_line_start (pre : text) (rest : text) :
  at_bol true (Cursor (step_over pre None) rest) = true <-> line_start pre.
Proof.
  unfold at_bol, line_start. cbn [before].
  induction pre as [|a p _] using rev_ind.
  - simpl. split; auto.
  - rewrite step_over_last. cbn [andb]. split.
    + intros H. right. now exists p, a.
    + intros [E|(p' & a' & E & H)].
      * symmetry in E. now apply app_cons_not_nil in E.
      * apply app_inj_tail in E as [_ ->]. exact H.
Qed.

Lemma computed_matches (c : cursor) :
  (exists c', matches true computedValue c c') <-> computed (ahead c).
Proof.
  unfold computedValue, computed. cbn [matches]. split.
  - intros (c' & mid & (w & Hw & [E1 _]) & [E2 _]).
    exists w, (ahead c'). split; [exact Hw|]. now rewrite E1, E2.
  - intros (ws & rest & Hw & E). destruct c as [prev s]. cbn [ahead] in E.
    subst s. eexists. eexists. split.
    + exists ws. split; [exact Hw | apply reads_ahead].
    + apply reads_ahead.
Qed.

Lemma addition_matches (c : cursor) :
  (exists c', matches true additionPattern c c') <->
  at_bol true c = true /\
  exists ws1 ws2 name ws3 ws4 val,
    ahead c = ws1 ++ chars "+" ++ ws2 ++ name ++ ws3 ++ chars "=" ++ ws4 ++ val /\
    (ws1 <> [] /\ all is_space ws1) /\
    (ws2 <> [] /\ all is_space ws2) /\
    (name <> [] /\ all is_word name) /\
    all is_space ws3 /\ all is_space ws4 /\
    ~ computed val /\
    exists a rest, val = a :: rest /\ is_line_terminator a = false.
Proof.
  unfold additionPattern. cbn [matches]. split.
  - intros (c' & m0 & (-> & Hbol) & m1 & H1 & m2 & [E2 _] & m3 & H3 & m4 & H4 &
            m5 & (ws3 & W3 & [E5 _]) & m6 & [E6 _] & m7 & (ws4 & W4 & [E7 _]) &
            m8 & (-> & Hno) & H9).
    apply matches_Plus in H1 as (ws1 & W1 & [E1 _]).
    apply matches_Plus in H3 as (ws2 & W2 & [E3 _]).
    apply matches_Plus in H4 as (name & Wn & [E4 _]).
    apply matches_Plus in H9 as (w & [Hne Ww] & [E9 _]).
    split; [exact Hbol|].
    exists ws1, ws2, name, ws3, ws4, (ahead m7).
    split; [now rewrite E1, E2, E3, E4, E5, E6, E7|].
    repeat (split; [assumption|]). split.
    + intros Hc. apply Hno. now apply computed_matches.
    + destruct w as [|a w]; [congruence|]. exists a, (w ++ ahead c').
      split; [exact E9|]. unfold all in Ww. simpl in Ww.
      apply andb_true_iff in Ww as [Fa _]. unfold any_char in Fa.
      now apply negb_true_iff in Fa.
  - intros (Hbol & ws1 & ws2 & name & ws3 & ws4 & val & E & W1 & W2 & Wn & W3 &
            W4 & Hno & a & rest & -> & Fa).
    destruct c as [prev s]. cbn [ahead] in E. subst s.
    eexists. eexists. split; [split; [reflexivity | exact Hbol]|].
    eexists. split; [apply matches_Plus; exists ws1; split;
                     [exact W1 | apply reads_ahead]|].
    eexists. split; [apply reads_ahead|].
    eexists. split; [apply matches_Plus; exists ws2; split;
                     [exact W2 | apply reads_ahead]|].
    eexists. split; [apply matches_Plus; exists name; split;
                     [exact Wn | apply reads_ahead]|].
    eexists. split; [exists ws3; split; [exact W3 | apply reads_ahead]|].
    eexists. split; [apply reads_ahead|].
    eexists. split; [exists ws4; split; [exact W4 | apply reads_ahead]|].
    eexists. split.
    + split; [reflexivity|]. intros Hc. apply Hno.
      apply computed_matches in Hc. exact Hc.
    + apply matches_Plus. exists [a]. split.
      * split; [discriminate|]. unfold all, any_char. simpl. now rewrite Fa.
      * apply (reads_ahead _ [a] rest).
Qed.

(** [hasRealAdditions], read off the expression. *)
Lemma hasRealAdditions_spec (plan : string) :
  hasRealAdditions (shouldCollapsePlan plan) = true <-> real_addition (chars plan).
Proof.
  cbn [shouldCollapsePlan hasRealAdditions]. rewrite test_matches.
  unfold real_addition. split.
  - intros (pre & c & c' & [E B] & Hm). destruct c as [prev s].
    unfold origin in E, B. cbn [ahead before] in E, B. subst prev.
    assert (Hex : exists c', matches true additionPattern
                               (Cursor (step_over pre None) s) c')
      by now exists c'.
    apply addition_matches in Hex
      as (Hbol & ws1 & ws2 & name & ws3 & ws4 & val & Es & Rest).
    cbn [ahead] in Es. apply at_bol_line_start in Hbol.
    exists pre, ws1, ws2, name, ws3, ws4, val. split; [now rewrite E, Es|].
    split; [exact Hbol | exact Rest].
  - intros (pre & ws1 & ws2 & name & ws3 & ws4 & val & E & Hbol & Rest).
    pose (c := Cursor (step_over pre None)
                      (ws1 ++ chars "+" ++ ws2 ++ name ++ ws3 ++ chars "=" ++
                       ws4 ++ val)).
    assert (Hex : exists c', matches true additionPattern c c').
    { apply addition_matches. split.
      - now apply at_bol_line_start.
      - exists ws1, ws2, name, ws3, ws4, val. split; [reflexivity | exact Rest]. }
    destruct Hex as (c' & Hm). exists pre, c, c'. split; [|exact Hm].
    split; [exact E | reflexivity].
Qed.

(** The verdict as one conjunction of the diagnostic fields. *)
Lemma shouldCollapse_fields (plan : string) :
  let r := shouldCollapsePlan plan in
  shouldCollapse r =
  truthy (hasOnlyUpdates r) && negb (hasRealAdditions r) &&
  negb (hasRealDeletions r) && (0 <? List.length (changedAttrs r))%nat &&
  forallb (has codeAttrs) (changedAttrs r) && negb (hasResourceChanges r).
Proof.
  unfold shouldCollapsePlan.
  cbn [shouldCollapse hasOnlyUpdates hasRealAdditions hasRealDeletions
       changedAttrs hasResourceChanges].
  destruct (match_ false summaryPattern (chars plan)) as [m|]; [|reflexivity].
  unfold js_and. cbn [truthy].
  destruct (text_eqb (capture 1 m) (chars "0") &&
            text_eqb (capture 3 m) (chars "0") &&
            positive (parseInt (capture 2 m))); [|reflexivity].
  cbn [truthy andb].
  match goal with
  | |- context [VBool ?b] => destruct b; reflexivity
  end.
Qed.

Lemma hasOnlyUpdates_shape (plan : string) :
  hasOnlyUpdates (shouldCollapsePlan plan) = VNull \/
  exists b, hasOnlyUpdates (shouldCollapsePlan plan) = VBool b.
Proof.
  cbn [shouldCollapsePlan hasOnlyUpdates].
  destruct (match_ false summaryPattern (chars plan)); [right|left]; eauto.
Qed.

Lemma hasResourceChanges_spec (plan : string) :
  hasResourceChanges (shouldCollapsePlan plan) = true <->
  contains "will be created" (chars plan) \/
  contains "will be destroyed" (chars plan) \/
  contains "must be replaced" (chars plan).
Proof.
  cbn [shouldCollapsePlan hasResourceChanges].
  now rewrite !orb_true_iff, !includes_contains, or_assoc.
Qed.

Lemma has_In (s : list string) (x : string) : has s x = true <-> In x s.
Proof.
  unfold has. rewrite existsb_exists. split.
  - intros (y & Hin & E). apply String.eqb_eq in E. now subst.
  - intros H. exists x. split; [exact H | apply String.eqb_refl].
Qed.

(** The loop that collects [changedAttrs] runs to its end: more fuel finds
    the same attributes. *)
Lemma changedAttrs_fuel (plan : string) (fuel : nat) :
  List.length (chars plan) < fuel ->
  map (fun m => string_of_list_ascii (capture 1 m))
      (exec_all fuel false changePattern (origin (chars plan))) =
  changedAttrs (shouldCollapsePlan plan).
Proof.
  intros H. cbn [shouldCollapsePlan changedAttrs]. f_equal.
  apply exec_all_fuel.
  - apply literal_first_consuming.
  - exact H.
  - cbn [origin ahead]. lia.
Qed.

End PlanFacts.

(** ** The plan classifier: the claims *)

Section PlanClaims.

(** C4. [shouldCollapse] is true exactly when [hasOnlyUpdates] holds, there
    are no real additions and no real deletions, at least one attribute
    changed, every changed attribute is [content_sha256] or [content], and
    the text has none of the three resource-change markers; so a plan that
    contains "will be created" never collapses. *)
Theorem shouldCollapse_iff (plan : string) :
  let r := shouldCollapsePlan plan in
  (shouldCollapse r = true <->
   hasOnlyUpdates r = VBool true /\
   hasRealAdditions r = false /\
   hasRealDeletions r = false /\
   changedAttrs r <> [] /\
   Forall (fun attr => attr = "content_sha256"%string \/ attr = "content"%string)
          (changedAttrs r) /\
   ~ contains "will be created" (chars plan) /\
   ~ contains "will be destroyed" (chars plan) /\
   ~ contains "must be replaced" (chars plan)) /\
  (contains "will be created" (chars plan) -> shouldCollapse r = false).
Proof.
  intros r.
  assert (Hres : hasResourceChanges r = false <->
                 ~ contains "will be created" (chars plan) /\
                 ~ contains "will be destroyed" (chars plan) /\
                 ~ contains "must be replaced" (chars plan)).
  { rewrite <- not_true_iff_false. unfold r. rewrite hasResourceChanges_spec.
    tauto. }
  assert (Hall : forallb (has codeAttrs) (changedAttrs r) = true <->
                 Forall (fun attr => attr = "content_sha256"%string \/
                                     attr = "content"%string) (changedAttrs r)).
  { rewrite forallb_forall, Forall_forall. split; intros H x Hx.
    - apply H, has_In in Hx. simpl in Hx. intuition.
    - apply has_In. simpl. destruct (H x Hx); auto. }
  assert (Hlen : (0 <? List.length (changedAttrs r))%nat = true <->
                 changedAttrs r <> []).
  { destruct (changedAttrs r) as [|x l]; simpl; split; intros H;
      try discriminate; try reflexivity; now contradiction H. }
  assert (Hupd : truthy (hasOnlyUpdates r) = true <-> hasOnlyUpdates r = VBool true).
  { destruct (hasOnlyUpdates_shape plan) as [E|(b & E)]; fold r in E; rewrite E.
    - simpl. split; discriminate.
    - simpl. split; congruence. }
  pose proof (shouldCollapse_fields plan) as F. cbv zeta in F. fold r in F.
  split.
  - rewrite F, !andb_true_iff, !negb_true_iff, Hres, Hall, Hlen, Hupd. tauto.
  - intros Hc. rewrite F. apply not_true_iff_false. intros H.
    rewrite !andb_true_iff, !negb_true_iff, Hres in H. tauto.
Qed.

(** C8, as the specification words it, fails: a block opener is a real
    addition for the script. *)
Lemma hasRealAdditions_counts_block_openers :
  ~ (hasRealAdditions (shouldCollapsePlan "  + tags = {") = true <->
     spec_hasRealAdditions "  + tags = {" = true).
Proof.
  intros [H _]. assert (E : spec_hasRealAdditions "  + tags = {" = false)
    by (vm_compute; reflexivity).
  rewrite E in H. assert (T : hasRealAdditions (shouldCollapsePlan "  + tags = {") = true)
    by (vm_compute; reflexivity).
  specialize (H T). discriminate.
Qed.

(** C8 (amended). [hasRealAdditions] is true exactly when, at a line start,
    the plan reads white space, [+], white space, a name, [=] with optional
    white space around it, and then at least one character of a value that
    is not the placeholder [(known after apply)]; a line that opens a block
    counts like any other.  A plan whose only addition is
    [+ status = (known after apply)] yields false. *)
Theorem hasRealAdditions_exactly :
  (forall plan : string,
      hasRealAdditions (shouldCollapsePlan plan) = true <->
      real_addition (chars plan)) /\
  hasRealAdditions (shouldCollapsePlan "  + status = (known after apply)") = false /\
  hasRealAdditions (shouldCollapsePlan "  + tags = {") = true.
Proof.
  split; [exact hasRealAdditions_spec|].
  split; vm_compute; reflexivity.
Qed.

(** C9, as the specification words it, fails: without a summary line
    [hasOnlyUpdates] is [null], not the boolean [false]. *)
Lemma hasOnlyUpdates_empty_plan_not_false :
  hasOnlyUpdates (shouldCollapsePlan "") <> VBool false.
Proof. vm_compute. discriminate. Qed.

(** C9 (amended). For a plan without a summary line, the empty plan
    included, [hasOnlyUpdates] is [null] and [shouldCollapse] is false. *)
Theorem no_summary_never_collapses (plan : string) :
  ~ has_summary (chars plan) ->
  hasOnlyUpdates (shouldCollapsePlan plan) = VNull /\
  shouldCollapse (shouldCollapsePlan plan) = false.
Proof.
  intros H. apply summaryMatch_none in H.
  pose proof (shouldCollapse_fields plan) as F. cbv zeta in F. rewrite F. clear F.
  cbn [shouldCollapsePlan hasOnlyUpdates]. rewrite H. split; reflexivity.
Qed.

Lemma empty_plan_has_no_summary : ~ has_summary (chars "").
Proof.
  intros (pre & a & b & c & post & _ & _ & _ & E).
  destruct pre; discriminate.
Qed.

Lemma no_summary_never_collapses_witness :
  ~ has_summary (chars "") /\
  hasOnlyUpdates (shouldCollapsePlan "") = VNull /\
  shouldCollapse (shouldCollapsePlan "") = false.
Proof.
  split.
  - exact empty_plan_has_no_summary.
  - exact (no_summary_never_collapses "" empty_plan_has_no_summary).
Defined.

Example code_only_plan_collapses :
  shouldCollapsePlan codeOnlyPlan =
  {| shouldCollapse := true;
     hasOnlyUpdates := VBool true;
     changedAttrs := ["content_sha256"; "content"]%string;
     hasRealAdditions := false;
     hasRealDeletions := false;
     hasResourceChanges := false |}.
Proof. vm_compute. reflexivity. Qed.

Example real_deletion_blocks_collapse :
  hasRealDeletions
    (shouldCollapsePlan ("  - binding = " ++ quoted "removed")) = true /\
  hasRealDeletions
    (shouldCollapsePlan ("  - name = " ++ quoted "x" ++ " -> null")) = false /\
  hasRealDeletions (shouldCollapsePlan "  - tags = [") = false.
Proof. repeat split; vm_compute; reflexivity. Qed.

End PlanClaims.

(** ** The coverage gate: facts *)

Section GateFacts.

Lemma getCoverageData_run (reportPath : string) (w : world) :
  getCoverageData reportPath w =
  ([ReadFile reportPath], Some (coverageOf (readJSON w reportPath))).
Proof.
  unfold getCoverageData, try_catch, bind, perform, ret, coverageOf.
  destruct (readJSON w reportPath) as [data|]; [|reflexivity].
  destruct data as [ | |b|x|t|l|fields]; try reflexivity.
  cbn [get].
  destruct (lookup "total_percent_covered" fields); try reflexivity;
    destruct (lookup "total_num_lines" fields); reflexivity.
Qed.

Lemma parseCodeowners_run (path : string) (w : world) :
  parseCodeowners path w =
  ([ReadFile path], Some (option_map ownersOf (readFileSync w path))).
Proof.
  unfold parseCodeowners, try_catch, bind, perform, ret.
  destruct (readFileSync w path); reflexivity.
Qed.

(** Without a pull-request number nothing is fetched or read. *)
Lemma checkCodeownersApproval_no_number (context : Context) (w : world) :
  pullNumber context = None ->
  checkCodeownersApproval context w = ([], Some false).
Proof.
  unfold pullNumber, checkCodeownersApproval.
  destruct (pull_request context) as [pr|]; [|reflexivity].
  destruct (number pr) as [[|n|n]|]; try reflexivity; discriminate.
Qed.

(** The decision on an unusable report. *)
Lemma analyze_invalid (reportPath : string) (threshold : float)
      (context : Context) (w : world) :
  parseError (coverageOf (readJSON w reportPath)) = true ->
  analyzeCoverageResults reportPath threshold context w =
  ([ReadFile reportPath],
   Some (VObj [("shouldFail"%string, VBool true);
               ("coveragePercent"%string, VNum PrimFloat.nan);
               ("reason"%string, str "Coverage report missing or invalid JSON");
               ("telemetryEvents"%string, VArr [])])).
Proof.
  intros H. unfold analyzeCoverageResults, bind.
  rewrite getCoverageData_run, H. reflexivity.
Qed.

Lemma checkCodeownersApproval_run (context : Context) (w : world) (n : Z) :
  pullNumber context = Some n ->
  checkCodeownersApproval context w =
  match listReviews w (repo_owner context) (repo_repo context) n with
  | Some reviews =>
      ([ListReviews (repo_owner context) (repo_repo context) n;
        ReadFile defaultCodeownersPath],
       Some (approvalFrom reviews
                          (option_map ownersOf (readFileSync w defaultCodeownersPath))
                          (prAuthorOf context)))
  | None => ([ListReviews (repo_owner context) (repo_repo context) n], None)
  end.
Proof.
  unfold pullNumber, checkCodeownersApproval, prAuthorOf.
  destruct (pull_request context) as [pr|]; [|discriminate].
  destruct (number pr) as [[|k|k]|]; try discriminate;
    intros H; injection H as <-; unfold bind, perform;
    destruct (listReviews w (repo_owner context) (repo_repo context) _);
    try reflexivity; rewrite parseCodeowners_run; reflexivity.
Qed.

Lemma chars_app (a b : string) : chars (a ++ b) = chars a ++ chars b.
Proof.
  unfold chars. induction a as [|x a IH]; simpl; [reflexivity|]. now rewrite IH.
Qed.

Lemma string_of_chars (s : string) : string_of_list_ascii (chars s) = s.
Proof. apply string_of_list_ascii_of_string. Qed.

(** [/-bot$/] matches at a position only when "-bot" is all that is left. *)
Lemma botSuffix_needs_end (prev : option ascii) (a : ascii) (s : text) :
  exec false botSuffix [] (Cursor prev (a :: s ++ chars "-bot")) = [].
Proof.
  destruct (exec false botSuffix [] (Cursor prev (a :: s ++ chars "-bot")))
    as [|[caps c'] l] eqn:E; [reflexivity|]. exfalso.
  assert (Hm : matches false botSuffix (Cursor prev (a :: s ++ chars "-bot")) c').
  { apply (exec_matches false botSuffix [] _ c'). exists caps. rewrite E. now left. }
  unfold botSuffix in Hm. cbn [matches] in Hm.
  destruct Hm as (mid & [E1 _] & -> & Heol).
  unfold at_eol in Heol. destruct (ahead mid) as [|b t]; [|discriminate].
  cbn [ahead] in E1. apply (f_equal (@List.length ascii)) in E1.
  rewrite app_nil_r in E1. cbn in E1. rewrite length_app in E1. cbn in E1. lia.
Qed.

Lemma botSuffix_search (s : text) :
  forall prev,
    search_from false botSuffix prev (s ++ chars "-bot") =
    Some (Found [] (Cursor (step_over s prev) (chars "-bot"))
                (Cursor (Some "t"%char) [])).
Proof.
  induction s as [|a s IH]; intros prev.
  - reflexivity.
  - cbn [app search_from]. rewrite botSuffix_needs_end. apply IH.
Qed.

(** The [-bot] suffix of a login is normalized away. *)
Lemma remove_bot_suffix (owner : string) :
  string_of_list_ascii
    (remove_first false botSuffix (chars (owner ++ "-bot"))) = owner.
Proof.
  unfold remove_first, search, origin. cbn [before ahead].
  rewrite chars_app, botSuffix_search. cbn [start stop ahead].
  rewrite app_nil_r, length_app, Nat.add_sub, firstn_app, Nat.sub_diag.
  cbn [firstn]. rewrite firstn_all, app_nil_r. apply string_of_chars.
Qed.

(** The solo-developer exception. *)
Lemma approvalFrom_sole_owner (reviews : list Review) (owner author : string) :
  author = owner \/ author = (owner ++ "-bot")%string ->
  approvalFrom reviews (Some [owner]) (Some author) = true.
Proof.
  intros H. unfold approvalFrom. cbn [size List.length Nat.eqb andb].
  replace (has [owner] author ||
           has [owner] (string_of_list_ascii
                          (remove_first false botSuffix (chars author))))
    with true; [reflexivity|].
  symmetry. apply orb_true_iff. destruct H as [->| ->].
  - left. apply has_In. now left.
  - right. rewrite remove_bot_suffix. apply has_In. now left.
Qed.

(** *** The latest review per reviewer *)

Lemma map_set_keys (m : list (string * string)) (k v u : string) :
  In u (map fst (map_set m k v)) <-> u = k \/ In u (map fst m).
Proof.
  induction m as [|[k' v'] m IH]; simpl.
  - intuition.
  - destruct (String.eqb_spec k' k) as [->|Hne]; simpl.
    + intuition.
    + rewrite IH. intuition.
Qed.

Lemma map_set_NoDup (m : list (string * string)) (k v : string) :
  NoDup (map fst m) -> NoDup (map fst (map_set m k v)).
Proof.
  induction m as [|[k' v'] m IH]; simpl; intros H.
  - constructor; [intros []|constructor].
  - inversion H as [|? ? Hnot Hm]; subst.
    destruct (String.eqb_spec k' k) as [->|Hne]; simpl.
    + now constructor.
    + constructor; [|now apply IH].
      rewrite map_set_keys. intros [->|Hin]; [now apply Hne | now apply Hnot].
Qed.

Lemma map_set_In (m : list (string * string)) (k v u s : string) :
  NoDup (map fst m) ->
  (In (u, s) (map_set m k v) <->
   (u = k /\ s = v) \/ (u <> k /\ In (u, s) m)).
Proof.
  induction m as [|[k' v'] m IH]; simpl; intros H.
  - split.
    + intros [E|[]]. injection E as <- <-. now left.
    + intros [[-> ->]|[_ []]]. now left.
  - inversion H as [|? ? Hnot Hm]; subst.
    destruct (String.eqb_spec k' k) as [->|Hne]; simpl.
    + split.
      * intros [E|Hin].
        -- injection E as <- <-. now left.
        -- right. split; [|now right]. intros ->. apply Hnot.
           apply in_map_iff. now exists (k, s).
      * intros [[-> ->]|[Hu [E|Hin]]].
        -- now left.
        -- injection E as <- _. now contradiction Hu.
        -- now right.
    + rewrite (IH Hm). split.
      * intros [E|[[-> ->]|[Hu Hin]]].
        -- injection E as <- <-. right. split; [exact Hne | now left].
        -- now left.
        -- right. split; [exact Hu | now right].
      * intros [[-> ->]|[Hu [E|Hin]]].
        -- right. now left.
        -- now left.
        -- right. right. now split.
Qed.

Lemma has_meaningful (s : string) :
  has meaningfulStates s = true <-> meaningful s.
Proof.
  rewrite has_In. unfold meaningfulStates, meaningful. simpl.
  intuition congruence.
Qed.

Lemma differs_spec (a : string) (b : option string) :
  differs a b = true <-> Some a <> b.
Proof.
  destruct b as [b|]; simpl.
  - rewrite negb_true_iff. destruct (String.eqb_spec a b) as [->|Hne].
    + split; [discriminate | intros H; now contradiction H].
    + split; [intros _ E; injection E as ->; now apply Hne | reflexivity].
  - split; [discriminate | reflexivity].
Qed.

Lemma latest_state_nil (u s : string) : ~ latest_state [] u s.
Proof. intros (e & r & l & E & _). destruct e; discriminate. Qed.

Lemma latest_state_snoc (rs : list Review) (r : Review) (u s : string) :
  latest_state (rs ++ [r]) u s <->
  (login r = u /\ state r = s /\ meaningful s) \/
  (~ (login r = u /\ meaningful (state r)) /\ latest_state rs u s).
Proof.
  unfold latest_state. split.
  - intros (e & r0 & l & E & Hu & Hs & Hm & Hl).
    destruct l as [|x l _] using rev_ind.
    + apply app_inj_tail in E as [_ ->]. left. auto.
    + rewrite app_comm_cons, app_assoc in E. apply app_inj_tail in E as [-> ->].
      right. split.
      * intros [Hx Hmx]. apply (Hl x); [apply in_or_app; right; now left| |]; auto.
      * exists e, r0, l. split; [reflexivity|].
        repeat (split; [assumption|]).
        intros r' Hin. apply Hl. apply in_or_app. now left.
  - intros [(Hu & Hs & Hm)|(Hno & e & r0 & l & -> & Hu & Hs & Hm & Hl)].
    + exists rs, r, []. split; [reflexivity|].
      repeat (split; [assumption|]). intros r' [].
    + exists e, r0, (l ++ [r]). split; [now rewrite <- app_assoc|].
      repeat (split; [assumption|]). intros r' Hin Hr'.
      apply in_app_or in Hin as [Hin|[<-|[]]]; [now apply Hl|].
      intros Hm'. apply Hno. now split.
Qed.

(** The map the script builds holds, for each reviewer other than the
    author, the state of that reviewer's latest meaningful review. *)
Lemma latestReviews_spec (author : option string) (reviews : list Review) :
  let latestReviews :=
    fold_left
      (fun m review =>
         if has meaningfulStates (state review)
         then map_set m (login review) (state review)
         else m)
      (filter (fun r => differs (login r) author) reviews) [] in
  NoDup (map fst latestReviews) /\
  forall u s, In (u, s) latestReviews <->
              Some u <> author /\ latest_state reviews u s.
Proof.
  induction reviews as [|r rs IH] using rev_ind.
  - simpl. split; [constructor|]. intros u s. split; [intros []|].
    intros [_ H]. now apply latest_state_nil in H.
  - cbv zeta in *. rewrite filter_app, fold_left_app. destruct IH as [ND IH].
    set (L := fold_left _ (filter _ rs) []) in *.
    cbn [filter]. destruct (differs (login r) author) eqn:D; cbn [fold_left].
    + apply differs_spec in D.
      destruct (has meaningfulStates (state r)) eqn:Hm.
      * apply has_meaningful in Hm. split; [now apply map_set_NoDup|].
        intros u s. rewrite (map_set_In L (login r) (state r) u s ND), IH,
                      latest_state_snoc.
        split.
        -- intros [[-> ->]|[Hu [Ha Hl]]].
           ++ split; [exact D|]. left. auto.
           ++ split; [exact Ha|]. right. split; [|exact Hl].
              intros [E _]. now apply Hu.
        -- intros [Ha [(Hu & Hs & _)|(Hno & Hl)]].
           ++ left. now split.
           ++ right. split; [|now split]. intros ->. apply Hno. now split.
      * split; [exact ND|]. intros u s. rewrite IH, latest_state_snoc.
        assert (Hn : ~ meaningful (state r)).
        { intros H. apply has_meaningful in H. congruence. }
        split.
        -- intros [Ha Hl]. split; [exact Ha|]. right. split; [|exact Hl].
           intros [_ H]. now apply Hn.
        -- intros [Ha [(_ & Hs & H)|(_ & Hl)]]; [|now split].
           subst s. now contradiction Hn.
    + split; [exact ND|]. intros u s. rewrite IH, latest_state_snoc.
      assert (Hr : Some (login r) = author).
      { destruct (differs_spec (login r) author) as [_ H].
        destruct author as [a|]; [|simpl in D; discriminate].
        simpl in D. apply negb_false_iff, String.eqb_eq in D. now subst. }
      split.
      * intros [Ha Hl]. split; [exact Ha|]. right. split; [|exact Hl].
        intros [E _]. subst u. now apply Ha.
      * intros [Ha [(E & _)|(_ & Hl)]]; [|now split].
        subst u. now contradiction Ha.
Qed.

(** With two owners or more, the verdict is the specification's. *)
Lemma approvalFrom_team (reviews : list Review) (owners : list string)
      (author : option string) :
  2 <= size owners ->
  (approvalFrom reviews (Some owners) author = true <->
   approved_by_codeowner reviews author owners).
Proof.
  intros H. unfold approvalFrom.
  destruct (size owners) as [|[|k]] eqn:S; [lia|lia|]. cbn [Nat.eqb andb].
  destruct (latestReviews_spec author reviews) as [_ HL]. cbv zeta in HL.
  rewrite existsb_exists. unfold approved_by_codeowner. split.
  - intros ([u s] & Hin & Hb). cbn [fst snd] in Hb.
    apply andb_true_iff in Hb as [Hs Ho]. apply String.eqb_eq in Hs. subst s.
    apply HL in Hin as [Ha Hl]. apply has_In in Ho. now exists u.
  - intros (u & Ha & Ho & Hl). exists (u, "APPROVED"%string). split.
    + apply HL. now split.
    + cbn [fst snd]. apply andb_true_iff. split; [reflexivity|].
      now apply has_In.
Qed.

(** *** The owners [parseCodeowners] collects *)

Lemma taken_reads (c c' : cursor) (w : text) : reads c w c' -> taken c c' = w.
Proof.
  intros [E _]. unfold taken. rewrite E, length_app, Nat.add_sub, firstn_app.
  now rewrite Nat.sub_diag, firstn_all, app_nil_r.
Qed.

(** Group 1 of a mention is a non-empty run of handle characters. *)
Lemma mention_capture (caps : captures) (c c' : cursor) :
  In (caps, c') (exec false mentionPattern [] c) ->
  capture 1 caps <> [] /\ all handle_char (capture 1 caps).
Proof.
  unfold mentionPattern. cbn [exec]. intros H.
  apply in_flat_map in H as ([caps1 c1] & _ & H). cbn [fst snd] in H.
  apply in_map_iff in H as ([caps2 c2] & E & H). cbn [fst snd] in E.
  injection E as <- <-.
  assert (Hm : matches false (Plus true handle_char) c1 c2).
  { apply (exec_matches false _ caps1 c1 c2). now exists caps2. }
  apply matches_Plus in Hm as (w & [Hne Hw] & Hr).
  cbn [capture Nat.eqb]. rewrite (taken_reads c1 c2 w Hr). now split.
Qed.

Lemma exec_all_groups (fuel : nat) (multiline : bool) (r : regex) :
  forall c caps,
    In caps (exec_all fuel multiline r c) ->
    exists c1 c2, In (caps, c2) (exec multiline r [] c1).
Proof.
  induction fuel as [|fuel IH]; intros c caps; cbn [exec_all]; [intros []|].
  unfold search.
  destruct (search_from multiline r (before c) (ahead c)) as [m|] eqn:E;
    [|intros []].
  intros [<-|H]; [|now apply (IH (stop m))].
  apply search_from_found in E as (pre & _ & Hin). now exists (start m), (stop m).
Qed.

Lemma add_In (s : list string) (x y : string) :
  In y (add s x) -> y = x \/ In y s.
Proof.
  unfold add. destruct (has s x); [now right|].
  intros H. apply in_app_or in H as [H|[<-|[]]]; auto.
Qed.

(** Every owner is a non-empty run of letters, digits, [_], [.] and [-]: no
    owner holds a slash. *)
Lemma owners_are_handles (content owner : string) :
  In owner (ownersOf content) ->
  owner <> ""%string /\ all handle_char (chars owner).
Proof.
  unfold ownersOf.
  set (P := fun o : string => o <> ""%string /\ all handle_char (chars o)).
  assert (Hadd : forall ms acc,
             (forall o, In o acc -> P o) ->
             (forall m, In m ms ->
                        capture 1 m <> [] /\ all handle_char (capture 1 m)) ->
             forall o,
               In o (fold_left
                       (fun owners m => add owners (string_of_list_ascii (capture 1 m)))
                       ms acc) -> P o).
  { induction ms as [|m ms IH]; intros acc Hacc Hms o; cbn [fold_left]; [apply Hacc|].
    apply IH.
    - intros o' Ho'. apply add_In in Ho' as [->|Ho']; [|now apply Hacc].
      destruct (Hms m (or_introl eq_refl)) as [Hne Hall]. split.
      + intros E. apply Hne. apply (f_equal chars) in E. unfold chars in E.
        now rewrite list_ascii_of_string_of_list_ascii in E.
      + unfold chars. now rewrite list_ascii_of_string_of_list_ascii.
    - intros m' Hm'. apply Hms. now right. }
  assert (Hlines : forall lines acc,
             (forall o, In o acc -> P o) ->
             forall o,
               In o (fold_left
                       (fun owners line =>
                          if startsWith (chars "#") line ||
                             (List.length (trim line) =? 0)%nat
                          then owners
                          else
                            let lineWithoutComment := hd [] (split "#"%char line) in
                            let matches :=
                              exec_all (S (List.length lineWithoutComment)) false
                                       mentionPattern (origin lineWithoutComment) in
                            fold_left
                              (fun owners m =>
                                 add owners (string_of_list_ascii (capture 1 m)))
                              matches owners)
                       lines acc) -> P o).
  { induction lines as [|line lines IH]; intros acc Hacc o; cbn [fold_left];
      [apply Hacc|].
    apply IH. destruct (startsWith (chars "#") line ||
                        (List.length (trim line) =? 0)%nat); [exact Hacc|].
    cbv zeta. apply Hadd; [exact Hacc|]. intros m Hm.
    apply exec_all_groups in Hm as (c1 & c2 & Hm).
    now apply mention_capture in Hm. }
  apply Hlines. intros o [].
Qed.

(** The loop over the mentions of a line runs to its end. *)
Lemma mentions_fuel (line : text) (fuel : nat) :
  List.length line < fuel ->
  exec_all fuel false mentionPattern (origin line) =
  exec_all (S (List.length line)) false mentionPattern (origin line).
Proof.
  intros H. apply exec_all_fuel.
  - apply literal_first_consuming.
  - exact H.
  - cbn [origin ahead]. lia.
Qed.

End GateFacts.

(** ** The coverage gate: the claims *)

Section GateClaims.

(** C1, as the specification words it, fails: a report that holds
    [total_num_lines] alone lacks a required number, and the gate fails it
    as invalid. *)
Lemma lines_only_report_fails :
  exists d,
    outcome (analyzeCoverageResults defaultReportPath 80
               (sampleContext "alice" [])
               (sampleWorld (Some (VObj [("total_num_lines"%string, VNum 0)]))
                            None None)) = Some d /\
    get d "shouldFail" = Some (VBool true) /\
    get d "coveragePercent" = Some (VNum PrimFloat.nan).
Proof. eexists. repeat split. Qed.

(** C1 (amended). A report that holds both required numbers, with
    [total_num_lines] equal to 0 and no crash flag, passes: [shouldFail] is
    false and [coveragePercent] is 100, and nothing but the report is
    read. *)
Theorem doc_only_report_passes
        (reportPath : string) (threshold : float) (context : Context) (w : world)
        (data : value) (p n : float) :
  readJSON w reportPath = Some data ->
  get data "total_percent_covered" = Some (VNum p) ->
  get data "total_num_lines" = Some (VNum n) ->
  PrimFloat.eqb n 0 = true ->
  get data "crash_fallback" <> Some (VBool true) ->
  exists d,
    analyzeCoverageResults reportPath threshold context w =
    ([ReadFile reportPath], Some d) /\
    get d "shouldFail" = Some (VBool false) /\
    get d "coveragePercent" = Some (VNum 100) /\
    get d "reason" = Some (str "No executable lines to cover (doc/config-only PR)").
Proof.
  intros R P N Z C. unfold analyzeCoverageResults, bind.
  rewrite getCoverageData_run, R. unfold coverageOf. rewrite P, N.
  destruct (get data "crash_fallback") as [flag|] eqn:F.
  - assert (T : is_true flag = false).
    { destruct flag as [ | |[|]| | | | ]; try reflexivity. now contradiction C. }
    cbn [parseError crashFallback totalLines percent]. rewrite T, Z.
    eexists. repeat split.
  - destruct data; discriminate.
Qed.

Lemma doc_only_report_passes_witness :
  exists d,
    analyzeCoverageResults defaultReportPath 80 (sampleContext "alice" [])
                           (sampleWorld (Some (report 0 0)) None None) =
    ([ReadFile defaultReportPath], Some d) /\
    get d "shouldFail" = Some (VBool false) /\
    get d "coveragePercent" = Some (VNum 100) /\
    get d "reason" = Some (str "No executable lines to cover (doc/config-only PR)").
Proof.
  apply (doc_only_report_passes defaultReportPath 80 (sampleContext "alice" [])
           (sampleWorld (Some (report 0 0)) None None) (report 0 0) 0 0).
  - reflexivity.
  - reflexivity.
  - reflexivity.
  - reflexivity.
  - discriminate.
Defined.

(** C3. When the parsed report carries [crash_fallback: true] the gate
    fails, whatever the labels, the threshold and the reviews: it reads the
    report and nothing else, and no override is applied. *)
Theorem crash_always_fails
        (reportPath : string) (threshold : float) (context : Context) (w : world)
        (data : value) :
  readJSON w reportPath = Some data ->
  get data "crash_fallback" = Some (VBool true) ->
  exists d,
    analyzeCoverageResults reportPath threshold context w =
    ([ReadFile reportPath], Some d) /\
    get d "shouldFail" = Some (VBool true) /\
    get d "overrideApplied" = Some VUndefined.
Proof.
  intros R C. unfold analyzeCoverageResults, bind.
  rewrite getCoverageData_run, R. unfold coverageOf. rewrite C.
  destruct (get data "total_percent_covered") as [[ | |b|x|t|l|f]|];
    try (cbn; eexists; repeat split; fail).
  destruct (get data "total_num_lines") as [[ | |b|y|t|l|f]|];
    cbn; eexists; repeat split.
Qed.

Lemma crash_always_fails_witness :
  exists d,
    analyzeCoverageResults defaultReportPath 80
      (sampleContext "alice" ["coverage-override"%string])
      (sampleWorld
         (Some (VObj [("total_percent_covered"%string, VNum 70);
                      ("total_num_lines"%string, VNum 10);
                      ("crash_fallback"%string, VBool true)]))
         (Some "* @alice"%string) (Some [])) =
    ([ReadFile defaultReportPath], Some d) /\
    get d "shouldFail" = Some (VBool true) /\
    get d "overrideApplied" = Some VUndefined.
Proof.
  apply (crash_always_fails defaultReportPath 80
           (sampleContext "alice" ["coverage-override"%string])
           (sampleWorld
              (Some (VObj [("total_percent_covered"%string, VNum 70);
                           ("total_num_lines"%string, VNum 10);
                           ("crash_fallback"%string, VBool true)]))
              (Some "* @alice"%string) (Some []))
           (VObj [("total_percent_covered"%string, VNum 70);
                  ("total_num_lines"%string, VNum 10);
                  ("crash_fallback"%string, VBool true)])).
  - reflexivity.
  - reflexivity.
Defined.

(** C5, as the specification words it, fails: the decision for coverage at
    or above the threshold carries no [reason]. *)
Lemma passing_decision_has_no_reason :
  exists d,
    outcome (analyzeCoverageResults defaultReportPath 80
               (sampleContext "alice" [])
               (sampleWorld (Some (report 90 10)) None None)) = Some d /\
    get d "shouldFail" = Some (VBool false) /\
    get d "reason" = Some VUndefined.
Proof. eexists. repeat split. Qed.

(** C5 (amended). Every decision the gate returns sets [shouldFail] to a
    boolean; its [reason] is a string on every branch but the pass at or
    above the threshold, which has no [reason]. *)
Theorem decision_shape
        (reportPath : string) (threshold : float) (context : Context) (w : world)
        (d : value) :
  outcome (analyzeCoverageResults reportPath threshold context w) = Some d ->
  (exists b, get d "shouldFail" = Some (VBool b)) /\
  ((exists s, get d "reason" = Some (VStr s)) \/
   (get d "reason" = Some VUndefined /\
    get d "shouldFail" = Some (VBool false) /\
    exists c, get d "coveragePercent" = Some (VNum c) /\
              PrimFloat.ltb c threshold = false)).
Proof.
  unfold analyzeCoverageResults, bind, ret, outcome. rewrite getCoverageData_run.
  destruct (coverageOf (readJSON w reportPath)) as [p n e c].
  cbn [parseError crashFallback totalLines percent].
  destruct e;
    [cbn; intros H; injection H as <-; split; [|left]; eexists; reflexivity|].
  destruct (truthy c);
    [cbn; intros H; injection H as <-; split; [|left]; eexists; reflexivity|].
  destruct (PrimFloat.eqb n 0);
    [cbn; intros H; injection H as <-; split; [|left]; eexists; reflexivity|].
  destruct (PrimFloat.ltb p threshold) eqn:L; cbn [negb].
  2:{ cbn. intros H. injection H as <-. split; [eexists; reflexivity|].
      right. repeat split. now exists p. }
  destruct (existsb _ _);
    [|cbn; intros H; injection H as <-; split; [|left]; eexists; reflexivity].
  destruct (checkCodeownersApproval context w) as [t [[|]|]];
    cbn; intros H; try discriminate; injection H as <-;
    (split; [|left]); eexists; reflexivity.
Qed.

Lemma decision_shape_witness :
  let d := VObj [("shouldFail"%string, VBool true);
                 ("reason"%string,
                  str "coverage-override label requires CODEOWNERS approval");
                 ("coveragePercent"%string, VNum 70);
                 ("telemetryEvents"%string,
                  VArr [overrideEvent "coverage_override_without_approval"
                                      70 80 false])] in
  (exists b, get d "shouldFail" = Some (VBool b)) /\
  ((exists s, get d "reason" = Some (VStr s)) \/
   (get d "reason" = Some VUndefined /\
    get d "shouldFail" = Some (VBool false) /\
    exists c, get d "coveragePercent" = Some (VNum c) /\
              PrimFloat.ltb c 80 = false)).
Proof.
  intros d.
  apply (decision_shape defaultReportPath 80
           (sampleContext "bob" ["coverage-override"%string])
           (sampleWorld (Some (report 70 10)) (Some "* @alice @carol"%string)
                        (Some []))
           d).
  reflexivity.
Defined.

(** C10. Without a pull-request number the approval check answers false at
    once, fetching no review and reading no file; the gate then reads the
    report only and never applies an override. *)
Theorem no_pull_request_no_override
        (context : Context) (w : world) :
  pullNumber context = None ->
  checkCodeownersApproval context w = ([], Some false) /\
  forall reportPath threshold,
  exists d,
    analyzeCoverageResults reportPath threshold context w =
    ([ReadFile reportPath], Some d) /\
    get d "overrideApplied" = Some VUndefined.
Proof.
  intros H. pose proof (checkCodeownersApproval_no_number context w H) as E.
  split; [exact E|]. intros reportPath threshold.
  unfold analyzeCoverageResults, bind, ret. rewrite getCoverageData_run.
  destruct (coverageOf (readJSON w reportPath)) as [p n e c].
  cbn [parseError crashFallback totalLines percent].
  destruct e; [eexists; repeat split|].
  destruct (truthy c); [eexists; repeat split|].
  destruct (PrimFloat.eqb n 0); [eexists; repeat split|].
  destruct (PrimFloat.ltb p threshold); cbn [negb]; [|eexists; repeat split].
  destruct (existsb _ _); [|eexists; repeat split].
  rewrite E. eexists; repeat split.
Qed.

Lemma no_pull_request_no_override_witness :
  checkCodeownersApproval pushContext
    (sampleWorld (Some (report 70 10)) (Some "* @alice"%string) (Some [])) =
  ([], Some false) /\
  forall reportPath threshold,
  exists d,
    analyzeCoverageResults reportPath threshold pushContext
      (sampleWorld (Some (report 70 10)) (Some "* @alice"%string) (Some [])) =
    ([ReadFile reportPath], Some d) /\
    get d "overrideApplied" = Some VUndefined.
Proof.
  apply (no_pull_request_no_override pushContext
           (sampleWorld (Some (report 70 10)) (Some "* @alice"%string) (Some []))).
  reflexivity.
Defined.

(** C7. When CODEOWNERS names one owner and the pull request's author is
    that owner, or that owner with a [-bot] suffix, the approval check
    answers true whatever the reviews; and the gate then lets a pull request
    below the threshold with the override label through, with
    [shouldFail] false and [overrideApplied] true. *)
Theorem sole_codeowner_override
        (context : Context) (w : world) (n : Z) (reviews : list Review)
        (content owner author : string) :
  pullNumber context = Some n ->
  listReviews w (repo_owner context) (repo_repo context) n = Some reviews ->
  readFileSync w defaultCodeownersPath = Some content ->
  ownersOf content = [owner] ->
  prAuthorOf context = Some author ->
  author = owner \/ author = (owner ++ "-bot")%string ->
  outcome (checkCodeownersApproval context w) = Some true /\
  forall (reportPath : string) (threshold : float) (data : value)
         (p lines : float) (pr : PullRequest) (names : list string),
    readJSON w reportPath = Some data ->
    get data "total_percent_covered" = Some (VNum p) ->
    get data "total_num_lines" = Some (VNum lines) ->
    get data "crash_fallback" <> Some (VBool true) ->
    PrimFloat.eqb lines 0 = false ->
    PrimFloat.ltb p threshold = true ->
    pull_request context = Some pr ->
    labels pr = Some names ->
    In "coverage-override"%string names ->
    exists d,
      outcome (analyzeCoverageResults reportPath threshold context w) = Some d /\
      get d "shouldFail" = Some (VBool false) /\
      get d "overrideApplied" = Some (VBool true).
Proof.
  intros N L F O A S.
  assert (E : checkCodeownersApproval context w =
              ([ListReviews (repo_owner context) (repo_repo context) n;
                ReadFile defaultCodeownersPath], Some true)).
  { rewrite (checkCodeownersApproval_run context w n N), L, F, A.
    cbn [option_map]. rewrite O. now rewrite approvalFrom_sole_owner. }
  split; [now rewrite E|].
  intros reportPath threshold data p lines pr names R P T C Z B PR LB IN.
  unfold analyzeCoverageResults, bind, ret. rewrite getCoverageData_run, R.
  unfold coverageOf. rewrite P, T.
  destruct (get data "crash_fallback") as [flag|] eqn:G;
    [|destruct data; discriminate].
  assert (Hf : is_true flag = false).
  { destruct flag as [ | |[|]| | | | ]; try reflexivity. now contradiction C. }
  cbn [parseError crashFallback totalLines percent]. rewrite Hf, Z, B, PR, LB.
  cbn [truthy negb].
  assert (Hl : existsb (String.eqb "coverage-override") names = true).
  { apply existsb_exists. exists "coverage-override"%string. now split. }
  rewrite Hl, E. eexists. repeat split.
Qed.

Lemma sole_codeowner_override_witness :
  outcome (checkCodeownersApproval
             (sampleContext "alice-bot" ["coverage-override"%string])
             (sampleWorld (Some (report 70 10)) (Some "* @alice"%string)
                          (Some []))) = Some true /\
  exists d,
    outcome (analyzeCoverageResults defaultReportPath 80
               (sampleContext "alice-bot" ["coverage-override"%string])
               (sampleWorld (Some (report 70 10)) (Some "* @alice"%string)
                            (Some []))) = Some d /\
    get d "shouldFail" = Some (VBool false) /\
    get d "overrideApplied" = Some (VBool true).
Proof.
  destruct (sole_codeowner_override
              (sampleContext "alice-bot" ["coverage-override"%string])
              (sampleWorld (Some (report 70 10)) (Some "* @alice"%string)
                           (Some []))
              7 [] "* @alice" "alice" "alice-bot"
              eq_refl eq_refl eq_refl eq_refl eq_refl (or_intror eq_refl))
    as [H1 H2].
  split; [exact H1|].
  apply (H2 defaultReportPath 80%float (report 70 10) 70%float 10%float
            {| number := Some 7%Z; user_login := Some "alice-bot"%string;
               labels := Some ["coverage-override"%string] |}
            ["coverage-override"%string]).
  - reflexivity.
  - reflexivity.
  - reflexivity.
  - discriminate.
  - reflexivity.
  - reflexivity.
  - reflexivity.
  - reflexivity.
  - now left.
Defined.

(** C6. With two owners or more, the approval check answers true exactly
    when some reviewer other than the author is an owner whose latest
    meaningful review, in fetch order, is an approval; the meaningful
    states are APPROVED, CHANGES_REQUESTED and DISMISSED, and a review in
    any other state neither counts nor hides an earlier meaningful one. *)
Theorem team_approval_iff
        (context : Context) (w : world) (n : Z) (reviews : list Review)
        (content : string) :
  pullNumber context = Some n ->
  listReviews w (repo_owner context) (repo_repo context) n = Some reviews ->
  readFileSync w defaultCodeownersPath = Some content ->
  2 <= size (ownersOf content) ->
  exists b,
    outcome (checkCodeownersApproval context w) = Some b /\
    (b = true <->
     approved_by_codeowner reviews (prAuthorOf context) (ownersOf content)).
Proof.
  intros N L F S.
  rewrite (checkCodeownersApproval_run context w n N), L, F. cbn [option_map].
  eexists. split; [reflexivity|]. now apply approvalFrom_team.
Qed.

Lemma team_approval_iff_witness :
  exists b,
    outcome (checkCodeownersApproval
               (sampleContext "bob" ["coverage-override"%string])
               (sampleWorld (Some (report 70 10))
                            (Some "* @alice @carol"%string)
                            (Some [ {| login := "alice"; state := "APPROVED" |};
                                    {| login := "alice"; state := "COMMENTED" |};
                                    {| login := "bob"; state := "APPROVED" |} ])))
    = Some b /\
    (b = true <->
     approved_by_codeowner
       [ {| login := "alice"; state := "APPROVED" |};
         {| login := "alice"; state := "COMMENTED" |};
         {| login := "bob"; state := "APPROVED" |} ]
       (Some "bob"%string) ["alice"%string; "carol"%string]).
Proof.
  apply (team_approval_iff
           (sampleContext "bob" ["coverage-override"%string])
           (sampleWorld (Some (report 70 10))
                        (Some "* @alice @carol"%string)
                        (Some [ {| login := "alice"; state := "APPROVED" |};
                                {| login := "alice"; state := "COMMENTED" |};
                                {| login := "bob"; state := "APPROVED" |} ]))
           7 _ "* @alice @carol" eq_refl eq_refl eq_refl).
  vm_compute. lia.
Defined.

(** C2. A team entry does contribute to the owner set: of [@org/team] the
    expression captures the organisation's name, and the script adds it as
    if it were a user's handle. *)
Theorem team_entry_adds_org_name :
  outcome (parseCodeowners defaultCodeownersPath
             (sampleWorld None (Some "* @org/team"%string) None))
  = Some (Some ["org"%string]) /\
  outcome (parseCodeowners defaultCodeownersPath
             (sampleWorld None (Some "* @alice @acme/platform"%string) None))
  = Some (Some ["alice"%string; "acme"%string]).
Proof. split; vm_compute; reflexivity. Qed.

Example empty_report_fails :
  analyzeCoverageResults defaultReportPath 80 (sampleContext "alice" [])
                         (sampleWorld (Some (VObj [])) None None) =
  ([ReadFile defaultReportPath],
   Some (VObj [("shouldFail"%string, VBool true);
               ("coveragePercent"%string, VNum PrimFloat.nan);
               ("reason"%string, str "Coverage report missing or invalid JSON");
               ("telemetryEvents"%string, VArr [])])).
Proof. now apply analyze_invalid. Qed.

Example later_comment_keeps_approval :
  approvalFrom [ {| login := "alice"; state := "APPROVED" |};
                 {| login := "alice"; state := "COMMENTED" |} ]
               (Some ["alice"; "carol"]%string) (Some "bob"%string) = true.
Proof. vm_compute. reflexivity. Qed.

Example later_change_request_revokes_approval :
  approvalFrom [ {| login := "alice"; state := "APPROVED" |};
                 {| login := "alice"; state := "CHANGES_REQUESTED" |} ]
               (Some ["alice"; "carol"]%string) (Some "bob"%string) = false.
Proof. vm_compute. reflexivity. Qed.

Example self_approval_does_not_count :
  approvalFrom [ {| login := "bob"; state := "APPROVED" |} ]
               (Some ["bob"; "carol"]%string) (Some "bob"%string) = false.
Proof. vm_compute. reflexivity. Qed.

(** X1. No owner that [parseCodeowners] returns holds a slash. *)
Theorem owners_have_no_slash (content owner : string) :
  In owner (ownersOf content) -> ~ In "/"%char (chars owner).
Proof.
  intros H Hin. apply owners_are_handles in H as [_ H].
  unfold all in H. rewrite forallb_forall in H. specialize (H _ Hin).
  discriminate.
Qed.

Lemma owners_have_no_slash_witness :
  In "acme"%string (ownersOf "* @alice @acme/platform") /\
  ~ In "/"%char (chars "acme").
Proof.
  assert (H : In "acme"%string (ownersOf "* @alice @acme/platform"))
    by (vm_compute; auto).
  split; [exact H|].
  exact (owners_have_no_slash "* @alice @acme/platform" "acme" H).
Defined.

(** X2. Coverage below the threshold without the override label fails, and
    no review is fetched. *)
Theorem below_threshold_without_label_fails
        (reportPath : string) (threshold : float) (context : Context) (w : world)
        (data : value) (p lines : float) :
  readJSON w reportPath = Some data ->
  get data "total_percent_covered" = Some (VNum p) ->
  get data "total_num_lines" = Some (VNum lines) ->
  get data "crash_fallback" <> Some (VBool true) ->
  PrimFloat.eqb lines 0 = false ->
  PrimFloat.ltb p threshold = true ->
  (forall pr names,
      pull_request context = Some pr -> labels pr = Some names ->
      ~ In "coverage-override"%string names) ->
  exists d,
    analyzeCoverageResults reportPath threshold context w =
    ([ReadFile reportPath], Some d) /\
    get d "shouldFail" = Some (VBool true) /\
    get d "coveragePercent" = Some (VNum p).
Proof.
  intros R P T C Z B NL.
  unfold analyzeCoverageResults, bind, ret. rewrite getCoverageData_run, R.
  unfold coverageOf. rewrite P, T.
  destruct (get data "crash_fallback") as [flag|] eqn:G;
    [|destruct data; discriminate].
  assert (Hf : is_true flag = false).
  { destruct flag as [ | |[|]| | | | ]; try reflexivity. now contradiction C. }
  cbn [parseError crashFallback totalLines percent]. rewrite Hf, Z, B.
  cbn [truthy negb].
  assert (Hl : existsb (String.eqb "coverage-override")
                       match pull_request context with
                       | Some pr => match labels pr with
                                    | Some l => l
                                    | None => []
                                    end
                       | None => []
                       end = false).
  { apply not_true_iff_false. intros H. apply existsb_exists in H as (x & Hin & E).
    apply String.eqb_eq in E. subst x.
    destruct (pull_request context) as [pr|]; [|destruct Hin].
    destruct (labels pr) as [names|] eqn:LB; [|destruct Hin].
    now apply (NL pr names eq_refl LB). }
  rewrite Hl. eexists. repeat split.
Qed.

Lemma below_threshold_without_label_fails_witness :
  exists d,
    analyzeCoverageResults defaultReportPath 80 (sampleContext "bob" [])
      (sampleWorld (Some (report 70 10)) (Some "* @alice"%string) (Some [])) =
    ([ReadFile defaultReportPath], Some d) /\
    get d "shouldFail" = Some (VBool true) /\
    get d "coveragePercent" = Some (VNum 70).
Proof.
  apply (below_threshold_without_label_fails defaultReportPath 80
           (sampleContext "bob" [])
           (sampleWorld (Some (report 70 10)) (Some "* @alice"%string) (Some []))
           (report 70 10) 70 10).
  - reflexivity.
  - reflexivity.
  - reflexivity.
  - discriminate.
  - reflexivity.
  - reflexivity.
  - intros pr names E L. injection E as <-. injection L as <-. intros [].
Defined.

(** X3. The approval check fails closed: when CODEOWNERS cannot be read, or
    names no owner, the answer is false whatever the reviews. *)
Theorem unreadable_codeowners_denies
        (context : Context) (w : world) (n : Z) (reviews : list Review) :
  pullNumber context = Some n ->
  listReviews w (repo_owner context) (repo_repo context) n = Some reviews ->
  readFileSync w defaultCodeownersPath = None \/
  (exists content, readFileSync w defaultCodeownersPath = Some content /\
                   ownersOf content = []) ->
  outcome (checkCodeownersApproval context w) = Some false.
Proof.
  intros N L H. rewrite (checkCodeownersApproval_run context w n N), L.
  destruct H as [F|(content & F & O)]; rewrite F; cbn [option_map outcome snd].
  - reflexivity.
  - now rewrite O.
Qed.

Lemma unreadable_codeowners_denies_witness :
  outcome (checkCodeownersApproval
             (sampleContext "bob" ["coverage-override"%string])
             (sampleWorld (Some (report 70 10)) None
                          (Some [ {| login := "alice"; state := "APPROVED" |} ])))
  = Some false.
Proof.
  apply (unreadable_codeowners_denies
           (sampleContext "bob" ["coverage-override"%string])
           (sampleWorld (Some (report 70 10)) None
                        (Some [ {| login := "alice"; state := "APPROVED" |} ]))
           7 [ {| login := "alice"; state := "APPROVED" |} ] eq_refl eq_refl).
  now left.
Defined.

End GateClaims.

(** ** Telemetry: facts *)

Section TelemetryFacts.

Lemma posts_app (t u : list telemetry_effect) : posts (t ++ u) = posts t ++ posts u.
Proof.
  induction t as [|e t IH]; [reflexivity|].
  destruct e; simpl; now rewrite IH.
Qed.

Lemma sendOne_posts (token : string) (context : RunContext) (net : Net)
      (i : nat) (event : value) :
  posts (sendOne token context net i event) =
  [(token, payloadOf context (now net i) event)].
Proof.
  unfold sendOne, payloadOf. cbn [posts].
  destruct (fetch net i _) as [[|] status|message]; reflexivity.
Qed.

Lemma sendFrom_posts (token : string) (context : RunContext) (net : Net)
      (events : list value) :
  forall i,
    posts (sendFrom token context net i events) =
    map (pair token) (payloadsFrom context net i events).
Proof.
  induction events as [|event rest IH]; intros i; [reflexivity|].
  cbn [sendFrom payloadsFrom map]. now rewrite posts_app, sendOne_posts, IH.
Qed.

Lemma payloadsFrom_events (context : RunContext) (net : Net) (events : list value) :
  forall i, map eventData (payloadsFrom context net i events) = events.
Proof.
  induction events as [|event rest IH]; intros i; [reflexivity|].
  cbn [payloadsFrom map]. now rewrite IH.
Qed.

Lemma sendFrom_no_token_warning (token : string) (context : RunContext)
      (net : Net) (events : list value) :
  forall i, ~ In WarnNoToken (sendFrom token context net i events).
Proof.
  induction events as [|event rest IH]; intros i; [intros []|].
  cbn [sendFrom]. intros H. apply in_app_or in H as [H|H]; [|now apply (IH (S i))].
  unfold sendOne in H. destruct H as [H|H]; [discriminate|].
  destruct (fetch net i _) as [[|] status|message];
    [destruct H | destruct H as [H|[]]; discriminate
     | destruct H as [H|[]]; discriminate].
Qed.

End TelemetryFacts.

(** ** Telemetry: properties *)

Section TelemetryProperties.

(** X4. Without a token, undefined or empty, [sendTelemetry] warns once and
    makes no request.  With a token every event is posted exactly once, in
    order, with the token and the run's metadata, whatever the answers: a
    refused or failed request does not stop the events after it. *)
Theorem telemetry_posts_every_event
        (events : list value) (axiomToken : option string)
        (context : RunContext) (net : Net) :
  let trace := sendTelemetry events axiomToken context net in
  match axiomToken with
  | Some (String a rest) =>
      posts trace =
      map (pair (String a rest)) (payloadsFrom context net 0 events) /\
      map (fun p => eventData (snd p)) (posts trace) = events /\
      ~ In WarnNoToken trace
  | Some EmptyString | None => trace = [WarnNoToken]
  end.
Proof.
  intros trace. unfold trace, sendTelemetry.
  destruct axiomToken as [[|a rest]|]; try reflexivity.
  cbn [String.length Nat.eqb]. rewrite sendFrom_posts.
  split; [reflexivity|]. split.
  - rewrite map_map. cbn [snd]. apply payloadsFrom_events.
  - apply sendFrom_no_token_warning.
Qed.

End TelemetryProperties.

(** ** The retry wrapper: facts *)

Section RetryFacts.

Local Open Scope Z_scope.

Lemma wrap64_small (z : Z) : - 2 ^ 63 <= z < 2 ^ 63 -> wrap64 z = z.
Proof.
  intros H. unfold wrap64.
  change (2 ^ 64) with (2 * 2 ^ 63). rewrite Z.mod_small; lia.
Qed.

Lemma retryable_nonzero (code : Z) : retryable code = true -> (code =? 0) = false.
Proof.
  unfold retryable. intros H. apply Z.eqb_neq. intros ->. discriminate.
Qed.

Variables CURL_RETRY_MAX CURL_RETRY_BASE_DELAY : Z.
Variable curl : nat -> CurlResult.
Hypothesis max_fits : CURL_RETRY_MAX < 2 ^ 63 - 1.

Lemma next_attempt (attempt : Z) :
  1 <= attempt <= CURL_RETRY_MAX -> wrap64 (attempt + 1) = attempt + 1.
Proof. intros H. apply wrap64_small. lia. Qed.


(** The loop when every attempt left fails with a retryable code. *)
Lemma retryLoop_exhausted (m : nat) :
  forall fuel k attempt last,
    1 <= attempt ->
    attempt + Z.of_nat m = CURL_RETRY_MAX ->
    (m < fuel)%nat ->
    (forall i, (i <= m)%nat -> retryable (exit_code (curl (k + i))) = true) ->
    retryLoop fuel CURL_RETRY_MAX CURL_RETRY_BASE_DELAY curl k attempt last =
    (retryRounds CURL_RETRY_MAX CURL_RETRY_BASE_DELAY curl k attempt m ++
     [RunCurl; PrintFile (written (curl (k + m)%nat));
      WarnExhausted CURL_RETRY_MAX (exit_code (curl (k + m)%nat))],
     Some (exit_code (curl (k + m)%nat))).
Proof.
  induction m as [|m IH]; intros fuel k attempt last H1 H2 Hf Hr;
    destruct fuel as [|fuel]; try lia; cbn [retryLoop].
  - rewrite Nat.add_0_r in *.
    destruct (Z.leb_spec attempt CURL_RETRY_MAX); [|lia].
    assert (R0 : retryable (exit_code (curl k)) = true).
    { specialize (Hr 0%nat). rewrite Nat.add_0_r in Hr. apply Hr. lia. }
    rewrite (retryable_nonzero _ R0), R0. cbn [negb].
    destruct (Z.ltb_spec attempt CURL_RETRY_MAX); [lia|].
    rewrite next_attempt by lia.
    destruct fuel as [|fuel]; cbn [retryLoop];
      (destruct (Z.leb_spec (attempt + 1) CURL_RETRY_MAX); [lia|]); reflexivity.
  - destruct (Z.leb_spec attempt CURL_RETRY_MAX); [|lia].
    assert (R0 : retryable (exit_code (curl k)) = true).
    { specialize (Hr 0%nat). rewrite Nat.add_0_r in Hr. apply Hr. lia. }
    rewrite (retryable_nonzero _ R0), R0. cbn [negb].
    destruct (Z.ltb_spec attempt CURL_RETRY_MAX); [|lia].
    rewrite next_attempt by lia.
    rewrite (IH fuel (S k) (attempt + 1) (curl k)).
    + rewrite <- Nat.add_succ_comm. reflexivity.
    + lia.
    + lia.
    + lia.
    + intros i Hi. rewrite Nat.add_succ_comm. apply Hr. lia.
Qed.

Lemma invocations_app (t u : list shell_effect) :
  invocations (t ++ u) = (invocations t + invocations u)%nat.
Proof. unfold invocations. now rewrite filter_app, length_app. Qed.


End RetryFacts.

(** ** The retry wrapper: properties *)

Section RetryProperties.

Local Open Scope Z_scope.



(** X6. For a maximum from 1 to below 2^63 - 1: when every attempt fails
    with a retryable code, the wrapper runs [curl] exactly CURL_RETRY_MAX
    times, waits after each attempt but the last, prints the last attempt's
    output, warns that it gave up, and returns the last exit code, which is
    not 0. *)
Theorem exhausted_retries_return_the_last_code
        (CURL_RETRY_MAX CURL_RETRY_BASE_DELAY : Z) (curl : nat -> CurlResult) :
  1 <= CURL_RETRY_MAX < 2 ^ 63 - 1 ->
  (forall i, Z.of_nat i < CURL_RETRY_MAX ->
             retryable (exit_code (curl i)) = true) ->
  let m := Z.to_nat (CURL_RETRY_MAX - 1) in
  curl_with_retry CURL_RETRY_MAX CURL_RETRY_BASE_DELAY curl =
  (retryRounds CURL_RETRY_MAX CURL_RETRY_BASE_DELAY curl 0 1 m ++
   [RunCurl; PrintFile (written (curl m));
    WarnExhausted CURL_RETRY_MAX (exit_code (curl m))],
   Some (exit_code (curl m))) /\
  exit_code (curl m) <> 0 /\
  invocations (fst (curl_with_retry CURL_RETRY_MAX CURL_RETRY_BASE_DELAY curl))
  = Z.to_nat CURL_RETRY_MAX.
Proof.
  intros [H1 Hmax] Hr m.
  assert (E : curl_with_retry CURL_RETRY_MAX CURL_RETRY_BASE_DELAY curl =
              (retryRounds CURL_RETRY_MAX CURL_RETRY_BASE_DELAY curl 0 1 m ++
               [RunCurl; PrintFile (written (curl m));
                WarnExhausted CURL_RETRY_MAX (exit_code (curl m))],
               Some (exit_code (curl m)))).
  { unfold curl_with_retry.
    apply (retryLoop_exhausted CURL_RETRY_MAX CURL_RETRY_BASE_DELAY curl Hmax m);
      unfold m; try lia.
    intros i Hi. apply Hr. lia. }
  split; [exact E|]. split.
  - assert (R : retryable (exit_code (curl m)) = true) by (apply Hr; unfold m; lia).
    apply retryable_nonzero in R. now apply Z.eqb_neq.
  - rewrite E. cbn [fst]. rewrite invocations_app.
    assert (Hrounds : forall n k a,
               invocations (retryRounds CURL_RETRY_MAX CURL_RETRY_BASE_DELAY
                                        curl k a n) = n).
    { induction n as [|n IH]; intros k a; [reflexivity|].
      cbn [retryRounds]. rewrite invocations_app, IH. reflexivity. }
    rewrite Hrounds. unfold invocations. cbn [filter List.length]. unfold m. lia.
Qed.

Lemma exhausted_retries_return_the_last_code_witness :
  curl_with_retry 3 2 (failsThen 5 {| exit_code := 0; written := "ok" |}) =
  ([RunCurl; WarnRetry 7 1 3 2; Sleep 2;
    RunCurl; WarnRetry 7 2 3 4; Sleep 4;
    RunCurl; PrintFile "partial"; WarnExhausted 3 7],
   Some 7) /\
  7 <> 0 /\
  invocations
    (fst (curl_with_retry 3 2 (failsThen 5 {| exit_code := 0; written := "ok" |})))
  = 3%nat.
Proof.
  apply (exhausted_retries_return_the_last_code
           3 2 (failsThen 5 {| exit_code := 0; written := "ok" |})).
  - lia.
  - intros [|[|[|i]]] Hi; try reflexivity. lia.
Defined.



(** X8. The wait before a retry doubles with each attempt: as long as the
    product fits a shell integer, the delay after attempt [attempt] is
    CURL_RETRY_BASE_DELAY * 2^(attempt - 1). *)
Theorem delay_doubles (CURL_RETRY_BASE_DELAY attempt : Z) :
  1 <= attempt <= 63 ->
  0 <= CURL_RETRY_BASE_DELAY ->
  CURL_RETRY_BASE_DELAY * 2 ^ (attempt - 1) < 2 ^ 63 ->
  delayFor CURL_RETRY_BASE_DELAY attempt =
  CURL_RETRY_BASE_DELAY * 2 ^ (attempt - 1).
Proof.
  intros Ha Hb Hfit. unfold delayFor, shl64.
  assert (P : 0 < 2 ^ (attempt - 1) <= 2 ^ 62).
  { split; [apply Z.pow_pos_nonneg; lia|]. apply Z.pow_le_mono_r; lia. }
  assert (Q : 2 ^ 62 < 2 ^ 63) by (apply Z.pow_lt_mono_r; lia).
  rewrite (wrap64_small (attempt - 1)) by lia.
  rewrite Z.mod_small by lia. rewrite Z.mul_1_l.
  rewrite (wrap64_small (2 ^ (attempt - 1))) by lia.
  apply wrap64_small. nia.
Qed.

Lemma delay_doubles_witness : delayFor 3 4 = 3 * 2 ^ (4 - 1).
Proof.
  apply (delay_doubles 3 4).
  - lia.
  - lia.
  - reflexivity.
Defined.

End RetryProperties.

(** ** The plan comment: facts *)

Section PlanCommentFacts.

Lemma startsWithU_app (p r : utext) : startsWithU p (p ++ r) = true.
Proof.
  induction p as [|x p IH]; [reflexivity|].
  cbn [app startsWithU]. now rewrite N.eqb_refl, IH.
Qed.

Lemma includesU_app (p r : utext) : includesU p (p ++ r) = true.
Proof.
  destruct (p ++ r) as [|x s] eqn:E; cbn [includesU]; rewrite <- E;
    now rewrite startsWithU_app.
Qed.

(** Both bodies start with the marker, so the comment posted is found
    again by it. *)
Lemma planBody_mentions (m : string) (args : PlanCommentArgs) (w : world)
      (now : string) (id : Z) :
  mentions m {| comment_id := id; comment_body := planBody m args w now |} = true.
Proof.
  unfold mentions, planBody, collapsedBody, fullBody. cbn [comment_body].
  destruct (if enableCollapse args
            then shouldCollapse (shouldCollapsePlan (planText args w))
            else false); apply includesU_app.
Qed.

Lemma find_split {A : Type} (f : A -> bool) (l : list A) (e : A) :
  find f l = Some e ->
  exists pre post,
    l = pre ++ e :: post /\ f e = true /\ filter f pre = [].
Proof.
  induction l as [|a l IH]; [discriminate|]. cbn [find].
  destruct (f a) eqn:Fa.
  - intros H. injection H as <-. now exists [], l.
  - intros H. apply IH in H as (pre & post & -> & Fe & Hpre).
    exists (a :: pre), post. repeat split; [exact Fe|].
    cbn [filter]. now rewrite Fa.
Qed.

Lemma find_none_filter {A : Type} (f : A -> bool) (l : list A) :
  find f l = None -> filter f l = [].
Proof.
  induction l as [|a l IH]; [reflexivity|]. cbn [find filter].
  destruct (f a); [discriminate | exact IH].
Qed.

Lemma find_some_of_filter {A : Type} (f : A -> bool) (l : list A) :
  filter f l <> [] -> exists e, find f l = Some e.
Proof.
  intros H. destruct (find f l) as [e|] eqn:E; [now exists e|].
  now apply find_none_filter in E.
Qed.

Lemma unique_by_id (store : list Comment) (a b : Comment) :
  NoDup (ids store) -> In a store -> In b store ->
  comment_id a = comment_id b -> a = b.
Proof.
  unfold ids. induction store as [|c store IH]; [intros _ []|].
  cbn [map]. intros ND Ha Hb E. inversion ND as [|? ? Hnot ND']; subst.
  destruct Ha as [->|Ha], Hb as [->|Hb].
  - reflexivity.
  - exfalso. apply Hnot. rewrite E. now apply in_map.
  - exfalso. apply Hnot. rewrite <- E. now apply in_map.
  - now apply IH.
Qed.

Lemma filter_twice {A : Type} (f g : A -> bool) (l : list A) :
  filter f (filter g l) = filter (fun x => g x && f x) l.
Proof.
  induction l as [|a l IH]; [reflexivity|]. cbn [filter].
  destruct (g a); cbn [filter andb]; [destruct (f a)|]; now rewrite IH.
Qed.

(** Deleting comments one by one removes the comments with their ids. *)
Lemma delete_all (matching : list Comment) :
  forall store,
    fold_left (fun s c => deleteComment s (comment_id c)) matching store =
    filter (fun c => negb (existsb (Z.eqb (comment_id c)) (ids matching))) store.
Proof.
  induction matching as [|d matching IH]; intros store; cbn [fold_left ids map existsb].
  - cbn [negb]. induction store as [|c store IHs]; [reflexivity|].
    cbn [filter]. now rewrite <- IHs.
  - rewrite IH. unfold deleteComment. rewrite filter_twice.
    apply filter_ext. intros c. fold (ids matching).
    now rewrite negb_orb.
Qed.

Lemma update_one (pre post : list Comment) (e : Comment) (body : utext) :
  NoDup (ids (pre ++ e :: post)) ->
  updateComment (pre ++ e :: post) (comment_id e) body =
  pre ++ {| comment_id := comment_id e; comment_body := body |} :: post.
Proof.
  intros ND. unfold updateComment. rewrite map_app. cbn [map].
  rewrite Z.eqb_refl.
  assert (Hother : forall c, In c pre \/ In c post ->
                             (comment_id c =? comment_id e)%Z = false).
  { intros c Hc. apply Z.eqb_neq. intros E.
    assert (Hin : In c (pre ++ e :: post)).
    { apply in_or_app. destruct Hc; [now left | right; now right]. }
    assert (He : In e (pre ++ e :: post)) by (apply in_or_app; right; now left).
    pose proof (unique_by_id _ c e ND Hin He E) as ->.
    unfold ids in ND. rewrite map_app in ND. cbn [map] in ND.
    apply NoDup_remove_2 in ND. apply ND. apply in_or_app.
    destruct Hc as [Hc|Hc]; [left|right]; now apply in_map. }
  f_equal; [|f_equal]; rewrite <- map_id; apply map_ext_in; intros c Hc;
    rewrite Hother; auto.
Qed.

Lemma ids_app (a b : list Comment) : ids (a ++ b) = ids a ++ ids b.
Proof. apply map_app. Qed.

(** A posting run, case by case. *)
Lemma post_run (args : PlanCommentArgs) (w : world) (now : string)
      (newId : Z) (store : list Comment) (m : string) :
  usable args m ->
  exitcode args <> "0"%string ->
  NoDup (ids store) ->
  let body := planBody m args w now in
  let run := formatPlanComment args w now newId store in
  (exists pre e post,
      store = pre ++ e :: post /\ mentions m e = true /\
      filter (mentions m) pre = [] /\
      calls run = [ReadPlan (planFilePath args); ListComments;
                   UpdateComment (comment_id e) body] /\
      comments run =
      pre ++ {| comment_id := comment_id e; comment_body := body |} :: post) \/
  (filter (mentions m) store = [] /\
   calls run = [ReadPlan (planFilePath args); ListComments; CreateComment body] /\
   comments run = store ++ [{| comment_id := newId; comment_body := body |}]).
Proof.
  intros ((n & Hn & Hn0) & Hm & Ht) Hx ND body run.
  unfold run, formatPlanComment. rewrite Hn, Hm.
  destruct n as [|n|n]; [now contradiction Hn0| |];
    (destruct (trim (chars m)) as [|x t] eqn:T; [now contradiction Ht|];
     cbn [List.length Nat.eqb];
     destruct (String.eqb_spec (exitcode args) "0") as [E|_];
     [now contradiction Hx|];
     fold body;
     destruct (find (mentions m) store) as [e|] eqn:F;
     [ left; apply find_split in F as (pre & post & -> & Fe & Hpre);
       exists pre, e, post; cbn [calls comments];
       repeat split; try assumption; now apply update_one
     | right; cbn [calls comments]; split;
       [now apply find_none_filter | split; reflexivity] ]).
Qed.

(** After a posting run some comment holds the marker and the ids are still
    distinct. *)
Lemma post_keeps_marker_and_ids
      (args : PlanCommentArgs) (w : world) (now : string) (newId : Z)
      (store : list Comment) (m : string) :
  usable args m ->
  exitcode args <> "0"%string ->
  NoDup (ids store) ->
  ~ In newId (ids store) ->
  1 <= List.length
         (filter (mentions m)
                 (comments (formatPlanComment args w now newId store))) /\
  NoDup (ids (comments (formatPlanComment args w now newId store))).
Proof.
  intros U Hx ND Hnew.
  destruct (post_run args w now newId store m U Hx ND)
    as [(pre & e & post & -> & Fe & Hpre & _ & E)|(Hnone & _ & E)];
    rewrite E.
  - pose proof (planBody_mentions m args w now (comment_id e)) as Mb.
    rewrite filter_app. cbn [filter]. rewrite Mb. split.
    + rewrite length_app. cbn [List.length]. lia.
    + unfold ids in *. rewrite map_app in *. exact ND.
  - pose proof (planBody_mentions m args w now newId) as Mb.
    rewrite filter_app. cbn [filter]. rewrite Mb. split.
    + rewrite length_app. cbn [List.length]. lia.
    + rewrite ids_app. cbn [ids map]. apply NoDup_app.
      * exact ND.
      * repeat constructor. intros [].
      * intros x Hin [<-|[]]. now apply Hnew.
Qed.

Lemma units_app (a b : string) : units (a ++ b) = units a ++ units b.
Proof. unfold units. now rewrite chars_app, map_app. Qed.

Lemma units_length (a : string) : List.length (units a) = String.length a.
Proof.
  unfold units, chars. rewrite length_map.
  induction a as [|x a IH]; [reflexivity|]. cbn. now rewrite IH.
Qed.

(** What makes [shouldCollapsePlan] refuse also keeps the comment in the
    full form. *)
Lemma marked_plan_not_collapsed (plan : string) :
  contains "will be created" (chars plan) \/
  contains "will be destroyed" (chars plan) \/
  contains "must be replaced" (chars plan) ->
  shouldCollapse (shouldCollapsePlan plan) = false.
Proof.
  intros H. apply hasResourceChanges_spec in H.
  pose proof (shouldCollapse_fields plan) as F. cbv zeta in F.
  rewrite F, H. cbn [negb]. apply andb_false_r.
Qed.

End PlanCommentFacts.

(** ** The plan comment: properties *)

Section PlanCommentProperties.

(** X9. Outside a pull request (no issue number) the function logs and
    returns; with a marker that is missing or blank it throws.  Either way
    it makes no call to the comment API and leaves the comments as they
    are. *)
Theorem guards_leave_comments_alone
        (args : PlanCommentArgs) (w : world) (now : string) (newId : Z)
        (store : list Comment) :
  (issue_number args = None \/ issue_number args = Some 0%Z ->
   formatPlanComment args w now newId store =
   {| calls := [Log]; comments := store; returned := true |}) /\
  (forall n,
      issue_number args = Some n -> n <> 0%Z ->
      marker args = None \/
      (exists m, marker args = Some m /\ trim (chars m) = []) ->
      formatPlanComment args w now newId store =
      {| calls := []; comments := store; returned := false |}).
Proof.
  unfold formatPlanComment. split.
  - intros [-> | ->]; reflexivity.
  - intros n -> Hn [-> | (m & -> & ->)];
      destruct n; try reflexivity; now contradiction Hn.
Qed.

(** X10. When the plan has no changes (exit code "0") every comment that
    holds the marker is deleted and the others are kept, in order; the plan
    file is not read. *)
Theorem no_changes_deletes_marked_comments
        (args : PlanCommentArgs) (w : world) (now : string) (newId : Z)
        (store : list Comment) (m : string) :
  usable args m ->
  exitcode args = "0"%string ->
  NoDup (ids store) ->
  let run := formatPlanComment args w now newId store in
  comments run = filter (fun c => negb (mentions m c)) store /\
  calls run =
  ListComments :: map DeleteComment (ids (filter (mentions m) store)) /\
  returned run = true.
Proof.
  intros ((n & Hn & Hn0) & Hm & Ht) Hx ND run.
  assert (E : run =
              {| calls :=
                   ListComments ::
                   map (fun c => DeleteComment (comment_id c))
                       (filter (mentions m) store);
                 comments :=
                   fold_left (fun s c => deleteComment s (comment_id c))
                             (filter (mentions m) store) store;
                 returned := true |}).
  { unfold run, formatPlanComment. rewrite Hn, Hm, Hx.
    destruct (trim (chars m)) as [|x t]; [now contradiction Ht|].
    destruct n; [now contradiction Hn0| |]; reflexivity. }
  rewrite E. cbn [calls comments returned]. split; [|split].
  - rewrite delete_all. apply filter_ext_in. intros c Hc. f_equal.
    destruct (mentions m c) eqn:Mc.
    + apply existsb_exists. exists (comment_id c). split; [|apply Z.eqb_refl].
      unfold ids. apply in_map. apply filter_In. now split.
    + apply not_true_iff_false. intros H.
      apply existsb_exists in H as (i & Hi & Ei). apply Z.eqb_eq in Ei.
      unfold ids in Hi. apply in_map_iff in Hi as (c' & Hc' & Hin).
      apply filter_In in Hin as [Hin Mc'].
      assert (c = c') by (apply (unique_by_id store); congruence).
      subst c'. congruence.
  - unfold ids. now rewrite map_map.
  - reflexivity.
Qed.

Lemma sampleArgs_usable (code : string) :
  usable (sampleArgs code) "<!-- tf-plan:workers -->".
Proof.
  split; [exists 12%Z; split; [reflexivity | discriminate]|].
  split; [reflexivity | vm_compute; discriminate].
Qed.

Lemma sampleStore_ids : NoDup (ids sampleStore).
Proof.
  repeat constructor; cbn; intuition discriminate.
Qed.

Lemma no_changes_deletes_marked_comments_witness :
  let run := formatPlanComment (sampleArgs "0")
               (sampleWorld None None None) "now" 3 sampleStore in
  comments run =
  filter (fun c => negb (mentions "<!-- tf-plan:workers -->" c)) sampleStore /\
  calls run =
  ListComments ::
  map DeleteComment
      (ids (filter (mentions "<!-- tf-plan:workers -->") sampleStore)) /\
  returned run = true.
Proof.
  exact (no_changes_deletes_marked_comments
           (sampleArgs "0") (sampleWorld None None None) "now" 3 sampleStore
           "<!-- tf-plan:workers -->" (sampleArgs_usable "0") eq_refl
           sampleStore_ids).
Defined.

(** X11. Posting a plan leaves exactly the comments without the marker as
    they were, and as many comments with the marker as before, or one when
    there was none; the comment ids stay distinct, and the body built from
    the plan is among the comments. *)
Theorem posting_touches_marked_comments_only
        (args : PlanCommentArgs) (w : world) (now : string) (newId : Z)
        (store : list Comment) (m : string) :
  usable args m ->
  exitcode args <> "0"%string ->
  NoDup (ids store) ->
  ~ In newId (ids store) ->
  let run := formatPlanComment args w now newId store in
  filter (fun c => negb (mentions m c)) (comments run) =
  filter (fun c => negb (mentions m c)) store /\
  List.length (filter (mentions m) (comments run)) =
  Nat.max 1 (List.length (filter (mentions m) store)) /\
  NoDup (ids (comments run)) /\
  In (planBody m args w now) (map comment_body (comments run)).
Proof.
  intros U Hx ND Hnew run.
  destruct (post_run args w now newId store m U Hx ND)
    as [(pre & e & post & -> & Fe & Hpre & _ & E)|(Hnone & _ & E)];
    fold run in E; rewrite E.
  - pose proof (planBody_mentions m args w now (comment_id e)) as Mb.
    rewrite !filter_app. cbn [filter]. rewrite Mb, Fe. cbn [negb].
    repeat split.
    + rewrite !length_app. cbn [List.length]. lia.
    + unfold ids in *. rewrite map_app in *. exact ND.
    + rewrite map_app. apply in_or_app. right. now left.
  - pose proof (planBody_mentions m args w now newId) as Mb.
    rewrite !filter_app. cbn [filter]. rewrite Mb, Hnone. cbn [negb].
    repeat split.
    + now rewrite app_nil_r.
    + rewrite ids_app. cbn [ids map]. apply NoDup_app.
      * exact ND.
      * repeat constructor. intros [].
      * intros x Hin [<-|[]]. now apply Hnew.
    + rewrite map_app. apply in_or_app. right. now left.
Qed.

Lemma posting_touches_marked_comments_only_witness :
  let m := "<!-- tf-plan:workers -->"%string in
  let args := sampleArgs "2" in
  let w := sampleWorld None (Some codeOnlyPlan) None in
  let run := formatPlanComment args w "now" 3 sampleStore in
  filter (fun c => negb (mentions m c)) (comments run) =
  filter (fun c => negb (mentions m c)) sampleStore /\
  List.length (filter (mentions m) (comments run)) =
  Nat.max 1 (List.length (filter (mentions m) sampleStore)) /\
  NoDup (ids (comments run)) /\
  In (planBody m args w "now") (map comment_body (comments run)).
Proof.
  intros m args w.
  apply (posting_touches_marked_comments_only args w "now" 3 sampleStore m
           (sampleArgs_usable "2")).
  - discriminate.
  - exact sampleStore_ids.
  - cbn. intuition discriminate.
Defined.

Lemma first_match_unique {A : Type} (f : A -> bool) (pre : list A) :
  forall pre' e e' post post',
    pre ++ e :: post = pre' ++ e' :: post' ->
    f e = true -> f e' = true ->
    filter f pre = [] -> filter f pre' = [] ->
    pre = pre' /\ e = e' /\ post = post'.
Proof.
  induction pre as [|a pre IH]; intros [|a' pre'] e e' post post' E Fe Fe' H H';
    cbn [app] in E; injection E as E1 E2; subst.
  - auto.
  - cbn [filter] in H'. rewrite Fe in H'. discriminate.
  - cbn [filter] in H. rewrite Fe' in H. discriminate.
  - cbn [filter] in H, H'. destruct (f a'); [discriminate|].
    destruct (IH pre' e e' post post' E2 Fe Fe' H H') as (-> & -> & ->). auto.
Qed.

(** X12. Posting twice never duplicates: the second post makes no comment
    but updates one, so the number of comments does not change; starting
    without a comment that holds the marker, the two posts leave exactly
    one, created by the first and holding the body of the second. *)
Theorem posting_twice_keeps_one_comment
        (args : PlanCommentArgs) (w1 w2 : world) (now1 now2 : string)
        (id1 id2 : Z) (store : list Comment) (m : string) :
  usable args m ->
  exitcode args <> "0"%string ->
  NoDup (ids store) ->
  ~ In id1 (ids store) ->
  let run1 := formatPlanComment args w1 now1 id1 store in
  let run2 := formatPlanComment args w2 now2 id2 (comments run1) in
  (exists id,
      calls run2 = [ReadPlan (planFilePath args); ListComments;
                    UpdateComment id (planBody m args w2 now2)]) /\
  List.length (comments run2) = List.length (comments run1) /\
  (filter (mentions m) store = [] ->
   comments run2 =
   store ++ [{| comment_id := id1; comment_body := planBody m args w2 now2 |}]).
Proof.
  intros U Hx ND Hnew run1 run2.
  destruct (post_keeps_marker_and_ids args w1 now1 id1 store m
              U Hx ND Hnew) as (Hcount & ND1).
  fold run1 in Hcount, ND1.
  destruct (post_run args w2 now2 id2 (comments run1) m U Hx ND1)
    as [(pre & e & post & Es & Fe & Hpre & Ec & E)|(Hnone & _)].
  2:{ rewrite Hnone in Hcount. cbn in Hcount. lia. }
  fold run2 in Ec, E.
  split; [now exists (comment_id e)|]. split.
  - rewrite E, Es, !length_app. reflexivity.
  - intros H0.
    destruct (post_run args w1 now1 id1 store m U Hx ND)
      as [(pre1 & e1 & post1 & -> & Fe1 & _)|(_ & _ & E1)].
    + rewrite filter_app in H0. cbn [filter] in H0. rewrite Fe1 in H0.
      now destruct (filter (mentions m) pre1).
    + fold run1 in E1. rewrite E1 in Es.
      change (store ++ [?c]) with (store ++ c :: []) in Es.
      apply (first_match_unique (mentions m)) in Es
        as (<- & <- & <-); try assumption.
      apply planBody_mentions.
Qed.

Lemma posting_twice_keeps_one_comment_witness :
  let m := "<!-- tf-plan:workers -->"%string in
  let args := sampleArgs "2" in
  let store := [ {| comment_id := 1; comment_body := units "LGTM" |} ] in
  let w1 := sampleWorld None (Some codeOnlyPlan) None in
  let w2 := sampleWorld None None None in
  let run1 := formatPlanComment args w1 "monday" 5 store in
  let run2 := formatPlanComment args w2 "tuesday" 6 (comments run1) in
  (exists id,
      calls run2 = [ReadPlan (planFilePath args); ListComments;
                    UpdateComment id (planBody m args w2 "tuesday")]) /\
  List.length (comments run2) = List.length (comments run1) /\
  (filter (mentions m) store = [] ->
   comments run2 =
   store ++ [{| comment_id := 5; comment_body := planBody m args w2 "tuesday" |}]).
Proof.
  intros m args store w1 w2.
  apply (posting_twice_keeps_one_comment args w1 w2 "monday" "tuesday" 5 6
           store m (sampleArgs_usable "2")).
  - discriminate.
  - repeat constructor. intros [].
  - cbn. intuition discriminate.
Defined.

(** X13. The comment body holds at most 60000 code units of the plan: its
    length is at most that of the marker, the module name, the time and the
    actor, plus 60000, plus 169 for the fixed text. *)
Theorem body_length_is_bounded
        (m : string) (args : PlanCommentArgs) (w : world) (now : string) :
  List.length (planBody m args w now) <=
  sliceLimit + String.length m + String.length (moduleName args) +
  String.length now + String.length (actor args) + 169.
Proof.
  unfold planBody. set (plan := planText args w).
  pose proof (firstn_le_length sliceLimit (chars plan)) as B.
  destruct (if enableCollapse args
            then shouldCollapse (shouldCollapsePlan plan)
            else false);
    unfold collapsedBody, fullBody, heading, signature, planSlice, lf, fence;
    rewrite !length_app, !units_app, !length_app, length_map, !units_length;
    cbn [String.length List.length]; lia.
Qed.

(** X14. The comment is posted in the full form, never collapsed, when
    collapsing is off, when the plan file cannot be read, and when the plan
    holds one of the resource-change markers. *)
Theorem full_form_when_not_code_only
        (m : string) (args : PlanCommentArgs) (w : world) (now : string) :
  enableCollapse args = false \/
  readFileSync w (planFilePath args) = None \/
  contains "will be created" (chars (planText args w)) \/
  contains "will be destroyed" (chars (planText args w)) \/
  contains "must be replaced" (chars (planText args w)) ->
  planBody m args w now =
  fullBody m (moduleName args) (planText args w) now (actor args).
Proof.
  intros H. unfold planBody.
  destruct (enableCollapse args); [|reflexivity].
  destruct H as [H|[H|H]]; [discriminate| |].
  - unfold planText. rewrite H.
    assert (E : shouldCollapse
                  (shouldCollapsePlan
                     "Error reading plan output. Check workflow logs.") = false)
      by (vm_compute; reflexivity).
    now rewrite E.
  - now rewrite marked_plan_not_collapsed.
Qed.

Lemma full_form_when_not_code_only_witness :
  planBody "<!-- tf-plan:workers -->" (sampleArgs "2")
           (sampleWorld None None None) "now" =
  fullBody "<!-- tf-plan:workers -->" "cloudflare-workers"
           (planText (sampleArgs "2") (sampleWorld None None None))
           "now" "alice".
Proof.
  apply (full_form_when_not_code_only "<!-- tf-plan:workers -->"
           (sampleArgs "2") (sampleWorld None None None) "now").
  right. now left.
Defined.

End PlanCommentProperties.

(** ** The coverage gate: further properties *)

Section GateProperties.

(** A comparison with NaN is false. *)
Lemma ltb_nan (p : float) : PrimFloat.ltb p PrimFloat.nan = false.
Proof.
  rewrite FloatAxioms.ltb_spec. unfold SpecFloat.SFltb.
  replace (FloatOps.Prim2SF PrimFloat.nan) with SpecFloat.S754_nan by reflexivity.
  destruct (FloatOps.Prim2SF p); reflexivity.
Qed.

(** X15. [getCoverageData] never throws and reads the report only.  It
    reports no parse error exactly when the report parsed to a value that
    holds numbers under [total_percent_covered] and [total_num_lines]; then
    it returns those numbers, and its crash flag is true exactly when
    [crash_fallback] is [true].  On a parse error both numbers are 0. *)
Theorem getCoverageData_validates
        (reportPath : string) (w : world) :
  exists d,
    getCoverageData reportPath w = ([ReadFile reportPath], Some d) /\
    (parseError d = false <->
     exists data p n,
       readJSON w reportPath = Some data /\
       get data "total_percent_covered" = Some (VNum p) /\
       get data "total_num_lines" = Some (VNum n)) /\
    (parseError d = false ->
     forall data,
       readJSON w reportPath = Some data ->
       get data "total_percent_covered" = Some (VNum (percent d)) /\
       get data "total_num_lines" = Some (VNum (totalLines d)) /\
       (crashFallback d = VBool true <->
        get data "crash_fallback" = Some (VBool true))) /\
    (parseError d = true -> percent d = 0%float /\ totalLines d = 0%float).
Proof.
  exists (coverageOf (readJSON w reportPath)).
  split; [apply getCoverageData_run|].
  unfold coverageOf.
  destruct (readJSON w reportPath) as [data|].
  2:{ cbn. repeat split; try discriminate. intros (data & _ & _ & E & _).
      discriminate. }
  destruct data as [ | |b|x|t|l|fields]; cbn [get];
    try (cbn; repeat split; try discriminate;
         intros (data & p & n & E & P & _); injection E as <-; discriminate).
  destruct (lookup "total_percent_covered" fields) as [ | |b|p|t|l|f] eqn:P;
    try (cbn; repeat split; try discriminate;
         intros (data & p' & n & E & P' & _); injection E as <-;
         cbn [get] in P'; congruence).
  destruct (lookup "total_num_lines" fields) as [ | |b|n|t|l|f] eqn:N;
    try (cbn; repeat split; try discriminate;
         intros (data & p' & n' & E & _ & N'); injection E as <-;
         cbn [get] in N'; congruence).
  cbn [parseError percent totalLines crashFallback]. repeat split.
  - intros _. exists (VObj fields), p, n. cbn [get]. now rewrite P, N.
  - injection H0 as <-. cbn [get]. now rewrite P.
  - injection H0 as <-. cbn [get]. now rewrite N.
  - injection H0 as <-. cbn [get]. intros E. injection E as E. f_equal.
    destruct (lookup "crash_fallback" fields) as [ | |[|]| | | | ];
      try discriminate. reflexivity.
  - injection H0 as <-. cbn [get]. intros E. injection E as ->. reflexivity.
  - discriminate.
  - discriminate.
Qed.

(** X16. The override is applied only to a pull request that carries the
    label, is below the threshold, and has the code owners' approval. *)
Theorem override_needs_label_and_approval
        (reportPath : string) (threshold : float) (context : Context)
        (w : world) (d : value) :
  outcome (analyzeCoverageResults reportPath threshold context w) = Some d ->
  get d "overrideApplied" = Some (VBool true) ->
  (exists pr names,
      pull_request context = Some pr /\ labels pr = Some names /\
      In "coverage-override"%string names) /\
  outcome (checkCodeownersApproval context w) = Some true /\
  get d "shouldFail" = Some (VBool false) /\
  exists p, get d "coveragePercent" = Some (VNum p) /\
            PrimFloat.ltb p threshold = true.
Proof.
  unfold analyzeCoverageResults, bind, ret, outcome.
  rewrite getCoverageData_run.
  destruct (coverageOf (readJSON w reportPath)) as [p n e c].
  cbn [parseError crashFallback totalLines percent].
  destruct e; [cbn; intros H; injection H as <-; discriminate|].
  destruct (truthy c); [cbn; intros H; injection H as <-; discriminate|].
  destruct (PrimFloat.eqb n 0); [cbn; intros H; injection H as <-; discriminate|].
  destruct (PrimFloat.ltb p threshold) eqn:L; cbn [negb];
    [|cbn; intros H; injection H as <-; discriminate].
  destruct (existsb _ _) eqn:X;
    [|cbn; intros H; injection H as <-; discriminate].
  destruct (checkCodeownersApproval context w) as [t [[|]|]];
    cbn; intros H; try discriminate; injection H as <-; try discriminate.
  intros _. repeat split.
  - apply existsb_exists in X as (x & Hin & E). apply String.eqb_eq in E. subst x.
    destruct (pull_request context) as [pr|]; [|destruct Hin].
    destruct (labels pr) as [names|] eqn:LB; [|destruct Hin].
    now exists pr, names.
  - now exists p.
Qed.

Lemma override_needs_label_and_approval_witness :
  let context := sampleContext "alice-bot" ["coverage-override"%string] in
  let w := sampleWorld (Some (report 70 10)) (Some "* @alice"%string) (Some []) in
  let d := VObj [("shouldFail"%string, VBool false);
                 ("reason"%string,
                  VStr [Txt "Coverage "; Shown 70; Txt "% below "; Shown 80;
                        Txt "% (override applied)"]);
                 ("coveragePercent"%string, VNum 70);
                 ("overrideApplied"%string, VBool true);
                 ("telemetryEvents"%string,
                  VArr [overrideEvent "coverage_override_applied" 70 80 true])] in
  (exists pr names,
      pull_request context = Some pr /\ labels pr = Some names /\
      In "coverage-override"%string names) /\
  outcome (checkCodeownersApproval context w) = Some true /\
  get d "shouldFail" = Some (VBool false) /\
  exists p, get d "coveragePercent" = Some (VNum p) /\
            PrimFloat.ltb p 80 = true.
Proof.
  intros context w d.
  apply (override_needs_label_and_approval defaultReportPath 80 context w d).
  - reflexivity.
  - reflexivity.
Defined.

(** X17. A decision carries a telemetry event exactly when the approval
    check was consulted: then it carries one event, named after the
    verdict, and [shouldFail] is the verdict's negation; otherwise it
    carries none. *)
Theorem one_event_per_override_attempt
        (reportPath : string) (threshold : float) (context : Context)
        (w : world) (d : value) :
  outcome (analyzeCoverageResults reportPath threshold context w) = Some d ->
  (get d "telemetryEvents" = Some (VArr []) /\
   get d "overrideApplied" = Some VUndefined /\
   analyzeCoverageResults reportPath threshold context w =
   ([ReadFile reportPath], Some d)) \/
  (exists p approved,
      outcome (checkCodeownersApproval context w) = Some approved /\
      get d "telemetryEvents" =
      Some (VArr [overrideEvent
                    (if approved then "coverage_override_applied"
                     else "coverage_override_without_approval")
                    p threshold approved]) /\
      get d "shouldFail" = Some (VBool (negb approved))).
Proof.
  unfold analyzeCoverageResults, bind, ret, outcome.
  rewrite getCoverageData_run.
  destruct (coverageOf (readJSON w reportPath)) as [p n e c].
  cbn [parseError crashFallback totalLines percent].
  destruct e; [cbn; intros H; injection H as <-; left; repeat split|].
  destruct (truthy c); [cbn; intros H; injection H as <-; left; repeat split|].
  destruct (PrimFloat.eqb n 0);
    [cbn; intros H; injection H as <-; left; repeat split|].
  destruct (PrimFloat.ltb p threshold) eqn:L; cbn [negb];
    [|cbn; intros H; injection H as <-; left; repeat split].
  destruct (existsb _ _) eqn:X;
    [|cbn; intros H; injection H as <-; left; repeat split].
  destruct (checkCodeownersApproval context w) as [t [[|]|]];
    cbn; intros H; try discriminate; injection H as <-; right.
  - exists p, true. repeat split.
  - exists p, false. repeat split.
Qed.

Lemma one_event_per_override_attempt_witness :
  let context := sampleContext "bob" ["coverage-override"%string] in
  let w := sampleWorld (Some (report 70 10)) (Some "* @alice @carol"%string)
                       (Some []) in
  let d := VObj [("shouldFail"%string, VBool true);
                 ("reason"%string,
                  str "coverage-override label requires CODEOWNERS approval");
                 ("coveragePercent"%string, VNum 70);
                 ("telemetryEvents"%string,
                  VArr [overrideEvent "coverage_override_without_approval"
                                      70 80 false])] in
  (get d "telemetryEvents" = Some (VArr []) /\
   get d "overrideApplied" = Some VUndefined /\
   analyzeCoverageResults defaultReportPath 80 context w =
   ([ReadFile defaultReportPath], Some d)) \/
  (exists p approved,
      outcome (checkCodeownersApproval context w) = Some approved /\
      get d "telemetryEvents" =
      Some (VArr [overrideEvent
                    (if approved then "coverage_override_applied"
                     else "coverage_override_without_approval")
                    p 80 approved]) /\
      get d "shouldFail" = Some (VBool (negb approved))).
Proof.
  intros context w d.
  apply (one_event_per_override_attempt defaultReportPath 80 context w d).
  reflexivity.
Defined.

(** X18. A valid report with executable lines whose coverage is not below
    the threshold passes, whatever the labels and the reviews, and nothing
    but the report is read.  A threshold that is not a number is never
    above the coverage: every such report passes. *)
Theorem at_or_above_threshold_passes
        (reportPath : string) (threshold : float) (context : Context) (w : world)
        (data : value) (p lines : float) :
  readJSON w reportPath = Some data ->
  get data "total_percent_covered" = Some (VNum p) ->
  get data "total_num_lines" = Some (VNum lines) ->
  get data "crash_fallback" <> Some (VBool true) ->
  PrimFloat.eqb lines 0 = false ->
  PrimFloat.ltb p threshold = false \/ threshold = PrimFloat.nan ->
  analyzeCoverageResults reportPath threshold context w =
  ([ReadFile reportPath],
   Some (VObj [("shouldFail"%string, VBool false);
               ("coveragePercent"%string, VNum p);
               ("telemetryEvents"%string, VArr [])])).
Proof.
  intros R P T C Z B.
  assert (L : PrimFloat.ltb p threshold = false).
  { destruct B as [B| ->]; [exact B | apply ltb_nan]. }
  unfold analyzeCoverageResults, bind, ret. rewrite getCoverageData_run, R.
  unfold coverageOf. rewrite P, T.
  destruct (get data "crash_fallback") as [flag|] eqn:G;
    [|destruct data; discriminate].
  assert (Hf : is_true flag = false).
  { destruct flag as [ | |[|]| | | | ]; try reflexivity. now contradiction C. }
  cbn [parseError crashFallback totalLines percent]. rewrite Hf, Z, L.
  reflexivity.
Qed.

Lemma at_or_above_threshold_passes_witness :
  analyzeCoverageResults defaultReportPath PrimFloat.nan
    (sampleContext "bob" [])
    (sampleWorld (Some (report 5 10)) None None) =
  ([ReadFile defaultReportPath],
   Some (VObj [("shouldFail"%string, VBool false);
               ("coveragePercent"%string, VNum 5);
               ("telemetryEvents"%string, VArr [])])).
Proof.
  apply (at_or_above_threshold_passes defaultReportPath PrimFloat.nan
           (sampleContext "bob" [])
           (sampleWorld (Some (report 5 10)) None None) (report 5 10) 5 10).
  - reflexivity.
  - reflexivity.
  - reflexivity.
  - discriminate.
  - reflexivity.
  - now right.
Defined.




Lemma drop_while_all (f : ascii -> bool) (s : text) :
  forallb f s = true -> drop_while f s = [].
Proof.
  induction s as [|a s IH]; [reflexivity|]. cbn [forallb drop_while].
  intros H. apply andb_true_iff in H as [Fa H]. rewrite Fa. now apply IH.
Qed.

Lemma trim_blank (s : text) : all is_space s -> trim s = [].
Proof. intros H. unfold trim. now rewrite (drop_while_all is_space s H). Qed.

(** X20. Comment lines and blank lines name no owner: a CODEOWNERS file
    made of such lines only gives the empty owner set. *)
Theorem comments_and_blank_lines_name_no_owner (content : string) :
  (forall line,
      In line (split (ascii_of_nat 10) (chars content)) ->
      startsWith (chars "#") line = true \/ all is_space line) ->
  ownersOf content = [].
Proof.
  unfold ownersOf. intros H.
  induction (split (ascii_of_nat 10) (chars content)) as [|line lines IH];
    [reflexivity|].
  cbn [fold_left].
  assert (Hskip : startsWith (chars "#") line ||
                  (List.length (trim line) =? 0)%nat = true).
  { destruct (H line (or_introl eq_refl)) as [Hc|Hb].
    - now rewrite Hc.
    - rewrite (trim_blank line Hb). apply orb_true_r. }
  rewrite Hskip. apply IH. intros l Hl. apply H. now right.
Qed.

Lemma comments_and_blank_lines_name_no_owner_witness :
  ownersOf ("# @alice owns everything" ++ lf ++ "   " ++ lf ++ "#* @bob") = [].
Proof.
  apply (comments_and_blank_lines_name_no_owner
           ("# @alice owns everything" ++ lf ++ "   " ++ lf ++ "#* @bob")).
  intros line H. vm_compute in H.
  destruct H as [<-|[<-|[<-|[]]]]; [left|right|left]; reflexivity.
Defined.

(** X23. When the review fetch is rejected the approval check rejects
    before it reads CODEOWNERS, and a gate that had to consult it returns
    no decision: the failure is passed on, never turned into a pass. *)
Theorem rejected_fetch_is_passed_on
        (reportPath : string) (threshold : float) (context : Context) (w : world)
        (data : value) (p lines : float) (n : Z)
        (pr : PullRequest) (names : list string) :
  readJSON w reportPath = Some data ->
  get data "total_percent_covered" = Some (VNum p) ->
  get data "total_num_lines" = Some (VNum lines) ->
  get data "crash_fallback" <> Some (VBool true) ->
  PrimFloat.eqb lines 0 = false ->
  PrimFloat.ltb p threshold = true ->
  pull_request context = Some pr ->
  labels pr = Some names ->
  In "coverage-override"%string names ->
  pullNumber context = Some n ->
  listReviews w (repo_owner context) (repo_repo context) n = None ->
  checkCodeownersApproval context w =
  ([ListReviews (repo_owner context) (repo_repo context) n], None) /\
  analyzeCoverageResults reportPath threshold context w =
  ([ReadFile reportPath;
    ListReviews (repo_owner context) (repo_repo context) n], None).
Proof.
  intros R P T C Z B PR LB IN N L.
  assert (E : checkCodeownersApproval context w =
              ([ListReviews (repo_owner context) (repo_repo context) n], None)).
  { now rewrite (checkCodeownersApproval_run context w n N), L. }
  split; [exact E|].
  unfold analyzeCoverageResults, bind, ret. rewrite getCoverageData_run, R.
  unfold coverageOf. rewrite P, T.
  destruct (get data "crash_fallback") as [flag|] eqn:G;
    [|destruct data; discriminate].
  assert (Hf : is_true flag = false).
  { destruct flag as [ | |[|]| | | | ]; try reflexivity. now contradiction C. }
  cbn [parseError crashFallback totalLines percent]. rewrite Hf, Z, B, PR, LB.
  cbn [truthy negb].
  assert (Hl : existsb (String.eqb "coverage-override") names = true).
  { apply existsb_exists. exists "coverage-override"%string. now split. }
  rewrite Hl, E. reflexivity.
Qed.

Lemma rejected_fetch_is_passed_on_witness :
  let context := sampleContext "bob" ["coverage-override"%string] in
  let w := sampleWorld (Some (report 70 10)) (Some "* @alice @carol"%string) None in
  checkCodeownersApproval context w = ([ListReviews "acme" "widgets" 7], None) /\
  analyzeCoverageResults defaultReportPath 80 context w =
  ([ReadFile defaultReportPath; ListReviews "acme" "widgets" 7], None).
Proof.
  intros context w.
  apply (rejected_fetch_is_passed_on defaultReportPath 80 context w
           (report 70 10) 70 10 7
           {| number := Some 7%Z; user_login := Some "bob"%string;
              labels := Some ["coverage-override"%string] |}
           ["coverage-override"%string]).
  - reflexivity.
  - reflexivity.
  - reflexivity.
  - discriminate.
  - reflexivity.
  - reflexivity.
  - reflexivity.
  - reflexivity.
  - now left.
  - reflexivity.
  - reflexivity.
Defined.

End GateProperties.

(** ** The plan classifier: further properties *)

Section PlanProperties.

Lemma exec_Cat_In (multiline : bool) (r1 r2 : regex) (caps : captures)
      (c : cursor) (m : captures * cursor) :
  In m (exec multiline (Cat r1 r2) caps c) ->
  exists caps1 c1,
    In (caps1, c1) (exec multiline r1 caps c) /\
    In m (exec multiline r2 caps1 c1).
Proof.
  cbn [exec]. intros H. apply in_flat_map in H as ([caps1 c1] & H1 & H2).
  now exists caps1, c1.
Qed.

Lemma exec_Lit_In (multiline : bool) (s : string) (caps caps' : captures)
      (c c' : cursor) :
  In (caps', c') (exec multiline (Lit s) caps c) ->
  caps' = caps /\ reads c (chars s) c'.
Proof.
  cbn [exec]. destruct (eat (chars s) c) as [d|] eqn:E; [|intros []].
  intros [H|[]]. injection H as <- <-. split; [reflexivity|].
  now apply eat_reads.
Qed.

Lemma exec_Plus_In (multiline greedy : bool) (f : ascii -> bool)
      (caps caps' : captures) (c c' : cursor) :
  In (caps', c') (exec multiline (Plus greedy f) caps c) ->
  caps' = caps /\ exists w, (w <> [] /\ all f w) /\ reads c w c'.
Proof.
  intros H. split.
  - unfold Plus in H. apply exec_Cat_In in H as (caps1 & c1 & H1 & H2).
    cbn [exec] in H1, H2.
    assert (caps1 = caps).
    { destruct (ahead c) as [|a t]; [destruct H1|].
      destruct (f a); [|destruct H1]. destruct H1 as [H1|[]]. congruence. }
    subst caps1. apply in_map_iff in H2 as (x & E & _). congruence.
  - apply (proj1 (matches_Plus multiline greedy f c c')).
    apply (exec_matches multiline _ caps c c'). now exists caps'.
Qed.

Lemma exec_Group_Plus_In (multiline greedy : bool) (n : nat)
      (f : ascii -> bool) (caps caps' : captures) (c c' : cursor) :
  In (caps', c') (exec multiline (Group n (Plus greedy f)) caps c) ->
  exists w, (w <> [] /\ all f w) /\ reads c w c' /\ caps' = (n, w) :: caps.
Proof.
  cbn [exec]. intros H. apply in_map_iff in H as ([caps1 c1] & E & H).
  cbn [fst snd] in E. injection E as <- <-.
  apply exec_Plus_In in H as (-> & w & Hw & Hr).
  exists w. split; [exact Hw|]. split; [exact Hr|].
  now rewrite (taken_reads c c1 w Hr).
Qed.

(** A match of the summary, with what its groups hold. *)
Lemma summary_exec (c c' : cursor) (caps : captures) :
  In (caps, c') (exec false summaryPattern [] c) ->
  exists a b d,
    caps = [(3, d); (2, b); (1, a)] /\
    numeral a /\ numeral b /\ numeral d /\
    ahead c = chars "Plan: " ++ a ++ chars " to add, " ++ b ++
              chars " to change, " ++ d ++ chars " to destroy" ++ ahead c'.
Proof.
  unfold summaryPattern. intros H.
  apply exec_Cat_In in H as (k1 & c1 & H1 & H).
  apply exec_Lit_In in H1 as (-> & [E1 _]).
  apply exec_Cat_In in H as (k2 & c2 & H2 & H).
  apply exec_Group_Plus_In in H2 as (a & Na & [E2 _] & ->).
  apply exec_Cat_In in H as (k3 & c3 & H3 & H).
  apply exec_Lit_In in H3 as (-> & [E3 _]).
  apply exec_Cat_In in H as (k4 & c4 & H4 & H).
  apply exec_Group_Plus_In in H4 as (b & Nb & [E4 _] & ->).
  apply exec_Cat_In in H as (k5 & c5 & H5 & H).
  apply exec_Lit_In in H5 as (-> & [E5 _]).
  apply exec_Cat_In in H as (k6 & c6 & H6 & H).
  apply exec_Group_Plus_In in H6 as (d & Nd & [E6 _] & ->).
  apply exec_Lit_In in H as (-> & [E7 _]).
  exists a, b, d. repeat (split; [assumption || reflexivity|]).
  now rewrite E1, E2, E3, E4, E5, E6, E7.
Qed.

Lemma text_eqb_eq (a b : text) : text_eqb a b = true -> a = b.
Proof.
  revert b. induction a as [|x a IH]; intros [|y b]; cbn [text_eqb];
    try discriminate; [reflexivity|].
  intros H. apply andb_true_iff in H as [E H]. apply Ascii.eqb_eq in E.
  subst y. f_equal. now apply IH.
Qed.

(** X21. A plan collapses only if it holds a summary line that counts no
    addition, no destruction and at least one change:
    [Plan: 0 to add, N to change, 0 to destroy] with N positive. *)
Theorem collapse_needs_update_only_summary (plan : string) :
  shouldCollapse (shouldCollapsePlan plan) = true ->
  exists pre n post,
    chars plan = pre ++ chars "Plan: 0 to add, " ++ n ++
                 chars " to change, 0 to destroy" ++ post /\
    numeral n /\ (0 < digits_value 0 n)%N.
Proof.
  intros H. pose proof (shouldCollapse_fields plan) as F. cbv zeta in F.
  rewrite F in H. clear F.
  repeat (apply andb_true_iff in H as [H _]).
  cbn [shouldCollapsePlan hasOnlyUpdates] in H.
  unfold match_, search, origin in H. cbn [before ahead] in H.
  destruct (search_from false summaryPattern None (chars plan)) as [m|] eqn:E;
    [|discriminate].
  cbn [option_map truthy] in H.
  apply andb_true_iff in H as [H P]. apply andb_true_iff in H as [A D].
  apply search_from_found in E as (pre & [Epre _] & Hin).
  apply summary_exec in Hin as (a & b & d & Ecaps & Na & Nb & Nd & Es).
  rewrite Ecaps in A, D, P. cbn [capture Nat.eqb] in A, D, P.
  apply text_eqb_eq in A, D. subst a d.
  exists pre, b, (ahead (stop m)). split; [|split; [exact Nb|]].
  - cbn [ahead] in Epre. rewrite Epre, Es. reflexivity.
  - destruct Nb as [Hne Hall]. destruct b as [|x b]; [now contradiction Hne|].
    unfold parseInt in P. unfold all in Hall. cbn [forallb] in Hall.
    apply andb_true_iff in Hall as [Hx _]. rewrite Hx in P. cbn [positive] in P.
    now apply N.ltb_lt.
Qed.

Lemma collapse_needs_update_only_summary_witness :
  exists pre n post,
    chars codeOnlyPlan = pre ++ chars "Plan: 0 to add, " ++ n ++
                         chars " to change, 0 to destroy" ++ post /\
    numeral n /\ (0 < digits_value 0 n)%N.
Proof.
  apply (collapse_needs_update_only_summary codeOnlyPlan).
  vm_compute. reflexivity.
Defined.

(** *** Real deletions *)

Lemma all_app (f : ascii -> bool) (a b : text) :
  all f (a ++ b) <-> all f a /\ all f b.
Proof. unfold all. rewrite forallb_app. apply andb_true_iff. Qed.

Lemma at_eol_line_end (c : cursor) :
  at_eol true c = true <-> line_end (ahead c).
Proof.
  unfold at_eol, line_end. destruct (ahead c) as [|a t]; cbn [andb].
  - split; auto.
  - split.
    + intros H. right. now exists a, t.
    + intros [E|(a' & t' & E & H)]; [discriminate|]. now injection E as <- <-.
Qed.

(** A run of line characters that starts a text lies on its first line. *)
Lemma prefix_in_line (p : text) :
  forall line tail r,
    all any_char p -> line_end tail -> p ++ r = line ++ tail ->
    exists q, line = p ++ q /\ r = q ++ tail.
Proof.
  induction p as [|a p IH]; intros line tail r Hp Ht E.
  - now exists line.
  - apply (all_app any_char [a] p) in Hp as [Ha Hp].
    unfold all in Ha. cbn in Ha. rewrite andb_true_r in Ha.
    destruct line as [|x line].
    + cbn in E. destruct Ht as [->|(t & r' & -> & Ht)]; [discriminate|].
      injection E as <- _. unfold any_char in Ha. rewrite Ht in Ha. discriminate.
    + cbn in E. injection E as <- E.
      destruct (IH line tail r Hp Ht E) as (q & -> & ->). now exists q.
Qed.

(** White space that runs to a line end covers the rest of the line. *)
Lemma spaces_in_line (q : text) :
  forall s rest tail,
    all any_char q -> line_end rest -> all is_space s ->
    s ++ rest = q ++ tail -> all is_space q.
Proof.
  induction q as [|a q IH]; intros s rest tail Hq Hr Hs E; [reflexivity|].
  apply (all_app any_char [a] q) in Hq as [Ha Hq].
  unfold all in Ha. cbn in Ha. rewrite andb_true_r in Ha.
  destruct s as [|b s].
  - cbn in E. destruct Hr as [->|(t & r' & -> & Ht)]; [discriminate|].
    injection E as <- _. unfold any_char in Ha. rewrite Ht in Ha. discriminate.
  - cbn in E. injection E as <- E.
    apply (all_app is_space [b] s) in Hs as [Hb Hs].
    apply (all_app is_space [b] q). split; [exact Hb|].
    now apply (IH s rest tail).
Qed.

(** [(?!.*->)] on a position whose line is [line]. *)
Lemma arrow_matches (c : cursor) (line tail : text) :
  ahead c = line ++ tail -> all any_char line -> line_end tail ->
  ((exists c', matches true (Star true any_char ;; Lit "->")%re c c') <->
   contains "->" line).
Proof.
  intros E Hl Ht. cbn [matches]. unfold contains. split.
  - intros (c' & mid & (p & Hp & [E1 _]) & [E2 _]).
    rewrite E1, E2, app_assoc in E.
    assert (Hpa : all any_char (p ++ chars "->")).
    { apply all_app. split; [exact Hp | reflexivity]. }
    destruct (prefix_in_line _ line tail (ahead c') Hpa Ht E) as (q & -> & _).
    exists p, q. now rewrite <- app_assoc.
  - intros (pre & post & ->). destruct c as [prev s]. cbn [ahead] in E. subst s.
    apply all_app in Hl as [Hpre _]. rewrite <- !app_assoc.
    eexists. eexists. split.
    + exists pre. split; [exact Hpre | apply reads_ahead].
    + apply reads_ahead.
Qed.

(** [(?!.*[\[{]\s*$)] on a position whose line is [line]. *)
Lemma block_matches (c : cursor) (line tail : text) :
  ahead c = line ++ tail -> all any_char line -> line_end tail ->
  ((exists c', matches true
                 (Star true any_char ;; Class (one_of "[{") ;;
                  Star true is_space ;; Eol)%re c c') <->
   opens_block line).
Proof.
  intros E Hl Ht. cbn [matches]. unfold opens_block. split.
  - intros (c' & m1 & (p & Hp & [E1 _]) & m2 & (b & Hb & [E2 _]) &
            m3 & (s & Hs & [E3 _]) & -> & Heol).
    apply at_eol_line_end in Heol.
    rewrite E1, E2, E3 in E.
    assert (Hpb : all any_char (p ++ [b])).
    { apply all_app. split; [exact Hp|]. unfold all. cbn. rewrite andb_true_r.
      unfold one_of in Hb. cbn in Hb.
      repeat (apply orb_true_iff in Hb as [Hb|Hb];
              [apply Ascii.eqb_eq in Hb; subst b; reflexivity|]).
      discriminate. }
    change (p ++ [b] ++ s ++ ahead m3) with (p ++ ([b] ++ s ++ ahead m3)) in E.
    rewrite app_assoc in E.
    destruct (prefix_in_line _ line tail (s ++ ahead m3) Hpb Ht E)
      as (q & -> & Eq).
    exists p, b, q. rewrite <- app_assoc. split; [reflexivity|].
    split; [exact Hb|].
    apply all_app in Hl as [_ Hq].
    now apply (spaces_in_line q s (ahead m3) tail).
  - intros (p & b & q & -> & Hb & Hq). destruct c as [prev s].
    cbn [ahead] in E. subst s.
    apply all_app in Hl as [Hp _]. rewrite <- app_assoc. cbn [app].
    eexists. eexists. split.
    { exists p. split; [exact Hp | apply reads_ahead]. }
    eexists. split.
    { exists b. split; [exact Hb | apply (reads_ahead _ [b])]. }
    eexists. split.
    { exists q. split; [exact Hq | apply reads_ahead]. }
    split; [reflexivity|]. now apply at_eol_line_end.
Qed.

Lemma deletion_matches (c : cursor) :
  (exists c', matches true deletionPattern c c') <->
  at_bol true c = true /\
  exists ws1 ws2 name ws3 ws4 line tail,
    ahead c = ws1 ++ chars "-" ++ ws2 ++ name ++ ws3 ++ chars "=" ++ ws4 ++
              line ++ tail /\
    (ws1 <> [] /\ all is_space ws1) /\
    (ws2 <> [] /\ all is_space ws2) /\
    (name <> [] /\ all is_word name) /\
    all is_space ws3 /\ all is_space ws4 /\
    (line <> [] /\ all any_char line) /\
    line_end tail /\
    ~ contains "->" line /\
    ~ opens_block line.
Proof.
  unfold deletionPattern. cbn [matches]. split.
  - intros (c' & m0 & (-> & Hbol) & m1 & H1 & m2 & [E2 _] & m3 & H3 & m4 & H4 &
            m5 & (ws3 & W3 & [E5 _]) & m6 & [E6 _] & m7 & (ws4 & W4 & [E7 _]) &
            m8 & (-> & Hno1) & m9 & (-> & Hno2) & m10 & H10 & -> & Heol).
    apply matches_Plus in H1 as (ws1 & W1 & [E1 _]).
    apply matches_Plus in H3 as (ws2 & W2 & [E3 _]).
    apply matches_Plus in H4 as (name & Wn & [E4 _]).
    apply matches_Plus in H10 as (line & Wl & [E10 _]).
    apply at_eol_line_end in Heol.
    split; [exact Hbol|].
    exists ws1, ws2, name, ws3, ws4, line, (ahead m10).
    split; [now rewrite E1, E2, E3, E4, E5, E6, E7, E10|].
    repeat (split; [assumption|]). split.
    + intros Hc. apply Hno1.
      now apply (arrow_matches m7 line (ahead m10) E10 (proj2 Wl) Heol).
    + intros Hc. apply Hno2.
      now apply (block_matches m7 line (ahead m10) E10 (proj2 Wl) Heol).
  - intros (Hbol & ws1 & ws2 & name & ws3 & ws4 & line & tail & E & W1 & W2 &
            Wn & W3 & W4 & Wl & Ht & Hno1 & Hno2).
    destruct c as [prev s]. cbn [ahead] in E. subst s.
    eexists. eexists. split; [split; [reflexivity | exact Hbol]|].
    eexists. split; [apply matches_Plus; exists ws1; split;
                     [exact W1 | apply reads_ahead]|].
    eexists. split; [apply reads_ahead|].
    eexists. split; [apply matches_Plus; exists ws2; split;
                     [exact W2 | apply reads_ahead]|].
    eexists. split; [apply matches_Plus; exists name; split;
                     [exact Wn | apply reads_ahead]|].
    eexists. split; [exists ws3; split; [exact W3 | apply reads_ahead]|].
    eexists. split; [apply reads_ahead|].
    eexists. split; [exists ws4; split; [exact W4 | apply reads_ahead]|].
    eexists. split.
    { split; [reflexivity|]. intros Hc. apply Hno1.
      exact (proj1 (arrow_matches (Cursor _ (line ++ tail)) line tail
                                  eq_refl (proj2 Wl) Ht) Hc). }
    eexists. split.
    { split; [reflexivity|]. intros Hc. apply Hno2.
      exact (proj1 (block_matches (Cursor _ (line ++ tail)) line tail
                                  eq_refl (proj2 Wl) Ht) Hc). }
    eexists. split.
    { apply matches_Plus. exists line. split; [exact Wl | apply reads_ahead]. }
    split; [reflexivity|]. now apply at_eol_line_end.
Qed.

Lemma hasRealDeletions_spec (plan : string) :
  hasRealDeletions (shouldCollapsePlan plan) = true <-> real_deletion (chars plan).
Proof.
  cbn [shouldCollapsePlan hasRealDeletions]. rewrite test_matches.
  unfold real_deletion. split.
  - intros (pre & c & c' & [E B] & Hm). destruct c as [prev s].
    unfold origin in E, B. cbn [ahead before] in E, B. subst prev.
    assert (Hex : exists c', matches true deletionPattern
                               (Cursor (step_over pre None) s) c')
      by now exists c'.
    apply deletion_matches in Hex
      as (Hbol & ws1 & ws2 & name & ws3 & ws4 & line & tail & Es & Rest).
    cbn [ahead] in Es. apply at_bol_line_start in Hbol.
    exists pre, ws1, ws2, name, ws3, ws4, line, tail.
    split; [now rewrite E, Es|]. split; [exact Hbol | exact Rest].
  - intros (pre & ws1 & ws2 & name & ws3 & ws4 & line & tail & E & Hbol & Rest).
    pose (c := Cursor (step_over pre None)
                      (ws1 ++ chars "-" ++ ws2 ++ name ++ ws3 ++ chars "=" ++
                       ws4 ++ line ++ tail)).
    assert (Hex : exists c', matches true deletionPattern c c').
    { apply deletion_matches. split.
      - now apply at_bol_line_start.
      - exists ws1, ws2, name, ws3, ws4, line, tail.
        split; [reflexivity | exact Rest]. }
    destruct Hex as (c' & Hm). exists pre, c, c'. split; [|exact Hm].
    split; [exact E | reflexivity].
Qed.

(** X22. [hasRealDeletions] is true exactly when, at a line start, the plan
    reads white space, [-], white space, a name, [=] with optional white
    space around it, and a value that runs to the end of its line, holds no
    arrow [->] and does not end in an opening bracket or brace; such a
    plan never collapses. *)
Theorem real_deletions_block_collapse (plan : string) :
  (hasRealDeletions (shouldCollapsePlan plan) = true <->
   real_deletion (chars plan)) /\
  (real_deletion (chars plan) ->
   shouldCollapse (shouldCollapsePlan plan) = false).
Proof.
  split; [apply hasRealDeletions_spec|].
  intros H. apply hasRealDeletions_spec in H.
  pose proof (shouldCollapse_fields plan) as F. cbv zeta in F.
  rewrite F, H. cbn [negb]. now rewrite !andb_false_r.
Qed.

End PlanProperties.
